(** * ZaneOps dashboard: staged changes of a docker service

  A shallow embedding of the parts of the service pages that decide
  how the pending-change queue of a service is shown and edited:

  - [ServiceEnvVariablesPage]: the merge of the committed
    [env_variables] with the [unapplied_changes] queue into the
    insertion-ordered [Map] the page renders, and the client actions
    that stage, update, delete and cancel a variable;
  - [ServiceDetailsLayout]: the image shown in the header and the
    deploy form with its unapplied-changes warning.

    A JavaScript [Map] iterates in insertion order and [set] on a key
    that is already present keeps the key where it is, so the map is
    an association list here and not a finite map up to extensionality:
    the order of its entries is what the page renders. *)

From Stdlib Require Import Ascii.
From stdpp Require Import base option list strings relations.

Local Open Scope string_scope.
Local Open Scope list_scope.

(** ** JavaScript [Map] with string keys *)

Module JsMap.
Section ops.
Context {V : Type}.

(** [new Map()] *)
Definition empty : list (string * V) := [].

(** [m.set(k, v)]: overwrite in place, or append a new key. *)
Fixpoint set (k : string) (v : V) (m : list (string * V)) : list (string * V) :=
  match m with
  | [] => [(k, v)]
  | (k', v') :: m' =>
      if decide (k' = k) then (k, v) :: m' else (k', v') :: set k v m'
  end.

(** [m.get(k)] *)
Fixpoint get (k : string) (m : list (string * V)) : option V :=
  match m with
  | [] => None
  | (k', v') :: m' => if decide (k' = k) then Some v' else get k m'
  end.

(** [m.size] *)
Definition size (m : list (string * V)) : nat := length m.

(** [[...m.keys()]] and [[...m.entries()]] *)
Definition keys (m : list (string * V)) : list string := m.*1.
Definition entries (m : list (string * V)) : list (string * V) := m.
End ops.
End JsMap.

(** ** The service as the API returns it *)

Inductive ChangeType := ADD | UPDATE | DELETE.

#[global] Instance ChangeType_eq_dec : EqDecision ChangeType.
Proof. solve_decision. Defined.

(** One committed item of [service.env_variables]. *)
Module EnvVariable.
Record t := mk { id : string; key : string; value : string }.
End EnvVariable.

(** The payload of a change to [env_variables]. *)
Module KeyValue.
Record t := mk { key : string; value : string }.
End KeyValue.

(** The payload of a change to [source]:
    [Pick<DockerService, "image" | "credentials">]. *)
Module Credentials.
Record t := mk { username : string; password : string }.
End Credentials.

Module SourceValue.
Record t := mk { image : option string; credentials : option Credentials.t }.
End SourceValue.

(** One element of [service.unapplied_changes]. The API types
    [new_value] and [old_value] as untyped JSON and each component
    casts them to the shape it reads ([as { key; value }] on the
    variables page, [as Pick<DockerService, ...>] in the layout), so
    the record is parametric in that shape. [null] and [undefined] are
    both [None]: the code only ever tests them with [??], [?.] and
    truthiness. *)
Module Change.
Section def.
Context {V : Type}.
Record t := mk {
    id : string;
    field : string;
    type : ChangeType;
    item_id : option string;
    new_value : option V;
    old_value : option V
  }.
End def.
Arguments t : clear implicits.
Arguments mk {V}.
End Change.

Module DockerService.
Section def.
Context {V : Type}.
Record t := mk {
    slug : string;
    image : option string;
    env_variables : option (list EnvVariable.t);
    unapplied_changes : list (Change.t V)
  }.
End def.
Arguments t : clear implicits.
Arguments mk {V}.
End DockerService.

(** ** The environment variables page *)

Module EnvVariableUI.
Record t := mk {
    change_id : option string;
    id : option string;
    name : string;
    value : string;
    change_type : option ChangeType
  }.
End EnvVariableUI.

(** A [for (const x of xs)] loop whose body may throw: the first
    exception ends the loop and the render. *)
Fixpoint for_of {S A : Type} (body : S → A → option S) (s : S) (xs : list A) : option S :=
  match xs with
  | [] => Some s
  | x :: xs' => s' ← body s x; for_of body s' xs'
  end.

Module ServiceEnvVariablesPage.

Definition Service := DockerService.t KeyValue.t.
Definition Change := Change.t KeyValue.t.

(** The value set for a committed variable (first loop). *)
Definition committed_entry (env : EnvVariable.t) : EnvVariableUI.t :=
  {| EnvVariableUI.change_id := None;
     EnvVariableUI.id := Some (EnvVariable.id env);
     EnvVariableUI.name := EnvVariable.key env;
     EnvVariableUI.value := EnvVariable.value env;
     EnvVariableUI.change_type := None |}.

(** [ch.new_value ?? ch.old_value] *)
Definition keyValue (ch : Change) : option KeyValue.t :=
  match Change.new_value ch with
  | Some v => Some v
  | None => Change.old_value ch
  end.

(** [ch.item_id ?? ch.id] *)
Definition change_key (ch : Change) : string :=
  default (Change.id ch) (Change.item_id ch).

(** The value set for a pending change (second loop). Reading
    [keyValue.key] throws a [TypeError] when both [new_value] and
    [old_value] are missing: [None]. *)
Definition change_entry (ch : Change) : option EnvVariableUI.t :=
  kv ← keyValue ch;
  Some {| EnvVariableUI.change_id := Some (Change.id ch);
          EnvVariableUI.id := Change.item_id ch;
          EnvVariableUI.name := KeyValue.key kv;
          EnvVariableUI.value := KeyValue.value kv;
          EnvVariableUI.change_type := Some (Change.type ch) |}.

Definition set_committed (m : list (string * EnvVariableUI.t)) (env : EnvVariable.t)
  : list (string * EnvVariableUI.t) :=
  JsMap.set (EnvVariable.id env) (committed_entry env) m.

Definition set_change (m : list (string * EnvVariableUI.t)) (ch : Change)
  : option (list (string * EnvVariableUI.t)) :=
  e ← change_entry ch; Some (JsMap.set (change_key ch) e m).

(** [service.unapplied_changes.filter((ch) => ch.field === "env_variables")] *)
Definition env_changes (chs : list Change) : list Change :=
  filter (λ ch, Change.field ch = "env_variables") chs.

(** The two loops over an explicit committed list and queue. *)
Definition merge (committed : list EnvVariable.t) (changes : list Change)
  : option (list (string * EnvVariableUI.t)) :=
  for_of set_change (foldl set_committed JsMap.empty committed) (env_changes changes).

(** The map [env_variables] the page builds on every render. *)
Definition env_variables (service : Service) : option (list (string * EnvVariableUI.t)) :=
  merge (default [] (DockerService.env_variables service))
        (DockerService.unapplied_changes service).

(** What the list under the header shows:
    [[...env_variables.entries()].map(([, env]) => <EnVariableRow .../>)],
    one row per entry, in the order of the map. *)
Definition rows (m : list (string * EnvVariableUI.t)) : list EnvVariableUI.t :=
  (JsMap.entries m).*2.

(** The two loops as a transition system on the loop state: the map
    built so far, the committed variables and the filtered changes
    still to visit. A change without payload has no successor: the
    render stops with the exception. *)
Definition LoopState : Type :=
  list (string * EnvVariableUI.t) * list EnvVariable.t * list Change.

Inductive step : LoopState → LoopState → Prop :=
| step_committed m env envs chs :
    step (m, env :: envs, chs) (set_committed m env, envs, chs)
| step_change m ch chs m' :
    set_change m ch = Some m' →
    step (m, [], ch :: chs) (m', [], chs).

Definition initial (committed : list EnvVariable.t) (changes : list Change) : LoopState :=
  (JsMap.empty, committed, env_changes changes).

(** The render of [service] reaches the end of both loops with [m]. *)
Definition renders (service : Service) (m : list (string * EnvVariableUI.t)) : Prop :=
  rtc step
      (initial (default [] (DockerService.env_variables service))
               (DockerService.unapplied_changes service))
      (m, [], []).

(** Every change to [env_variables] in the queue carries a payload. *)
Definition payloads_present (changes : list Change) : Prop :=
  Forall (λ ch, is_Some (keyValue ch)) (env_changes changes).

End ServiceEnvVariablesPage.

(** ** The client actions of the page *)

(** [FormData] with string values; [get] returns the first value of
    a name, or [null]. *)
Module FormData.
Definition t := list (string * string).

Fixpoint get (name : string) (formData : t) : option string :=
  match formData with
  | [] => None
  | (n, v) :: rest => if decide (n = name) then Some v else get name rest
  end.
End FormData.

(** The body of a [PUT .../request-service-changes/docker/{service_slug}/].
    A property the object literal does not write is [None]. *)
Module ChangeRequest.
Record t := mk {
  type : ChangeType;
  item_id : option string;
  field : string;
  new_value : option KeyValue.t
}.
End ChangeRequest.

Inductive Request :=
| PUT_request_service_changes
    (headers : list (string * string)) (project_slug service_slug : string)
    (body : ChangeRequest.t)
| DELETE_cancel_service_changes
    (headers : list (string * string)) (project_slug service_slug change_id : string).

(** The error body of the API: [error.errors.map((err) => err.detail)]. *)
Module ApiError.
Record item := mk_item { detail : string }.
Record t := mk { errors : list item }.
End ApiError.

(** What [apiClient.PUT] and [apiClient.DELETE] resolve to. *)
Module ApiResponse.
Section def.
Context {Data : Type}.
Record t := mk { error : option ApiError.t; data : option Data }.
End def.
Arguments t : clear implicits.
Arguments mk {Data}.
End ApiResponse.

Inductive Toast :=
| toast_loading_call (id : nat) (message : string)
| toast_error_call (id : nat) (title description : string)
| toast_success_call (id : nat) (title description : string).

(** The client-side state the actions touch: the requests sent, the
    service queries invalidated in the query cache (by project and
    service slug), and the toasts shown. *)
Module Client.
Record t := mk {
  sent : list Request;
  invalidated : list (string * string);
  toasts : list Toast
}.
End Client.

(** An action threads the client state. *)
Definition Action (A : Type) : Type := Client.t → A * Client.t.

#[global] Instance Action_ret : MRet Action := λ A a c, (a, c).
#[global] Instance Action_bind : MBind Action :=
  λ A B f m c, let '(a, c') := m c in f a c'.
#[global] Instance Action_fmap : FMap Action :=
  λ A B f m c, let '(a, c') := m c in (f a, c').

(** [[...].join(" ")] *)
Fixpoint join (sep : string) (xs : list string) : string :=
  match xs with
  | [] => ""
  | [x] => x
  | x :: rest => x +:+ sep +:+ join sep rest
  end.

Module Actions.
Section actions.
(** The collaborators outside the source: the CSRF header read from the
    cookie and the server behind [apiClient]. *)
Context {Data : Type}.
Context (getCsrfTokenHeader : list (string * string)).
Context (apiClient : Request → ApiResponse.t Data).

Definition fetch (r : Request) : Action (ApiResponse.t Data) :=
  λ c, (apiClient r,
        {| Client.sent := Client.sent c ++ [r];
           Client.invalidated := Client.invalidated c;
           Client.toasts := Client.toasts c |}).

(** [queryClient.invalidateQueries({...serviceQueries.single({project_slug, service_slug}), exact: true})] *)
Definition invalidateQueries (project_slug service_slug : string) : Action unit :=
  λ c, (tt,
        {| Client.sent := Client.sent c;
           Client.invalidated := Client.invalidated c ++ [(project_slug, service_slug)];
           Client.toasts := Client.toasts c |}).

Definition show (t : Toast) : Action unit :=
  λ c, (tt,
        {| Client.sent := Client.sent c;
           Client.invalidated := Client.invalidated c;
           Client.toasts := Client.toasts c ++ [t] |}).

(** [toast.loading(message)] returns the id of the new toast. *)
Definition toast_loading (message : string) : Action nat :=
  λ c, let id := length (Client.toasts c) in
       (id, (show (toast_loading_call id message) c).2).

Inductive ActionResult :=
| errors_userData (errors : ApiError.t) (userData : KeyValue.t)
| data_result (data : Data)
| undefined.

Inductive Outcome :=
| returned (r : ActionResult)
| thrown (message : string).

Definition userData_of (formData : FormData.t) : KeyValue.t :=
  {| KeyValue.key := default "" (FormData.get "key" formData);
     KeyValue.value := default "" (FormData.get "value" formData) |}.

(** The request each action hands to [apiClient]. *)
Definition createEnvVariable_request (project_slug service_slug : string)
    (formData : FormData.t) : Request :=
  PUT_request_service_changes getCsrfTokenHeader project_slug service_slug
    {| ChangeRequest.type := ADD;
       ChangeRequest.item_id := None;
       ChangeRequest.field := "env_variables";
       ChangeRequest.new_value := Some (userData_of formData) |}.

Definition updateEnvVariable_request (project_slug service_slug : string)
    (formData : FormData.t) : Request :=
  PUT_request_service_changes getCsrfTokenHeader project_slug service_slug
    {| ChangeRequest.type := UPDATE;
       ChangeRequest.item_id := Some (default "" (FormData.get "item_id" formData));
       ChangeRequest.field := "env_variables";
       ChangeRequest.new_value := Some (userData_of formData) |}.

Definition deleteEnvVariable_request (project_slug service_slug : string)
    (formData : FormData.t) : Request :=
  PUT_request_service_changes getCsrfTokenHeader project_slug service_slug
    {| ChangeRequest.type := DELETE;
       ChangeRequest.item_id := Some (default "" (FormData.get "item_id" formData));
       ChangeRequest.field := "env_variables";
       ChangeRequest.new_value := None |}.

Definition cancelEnvVariable_request (project_slug service_slug : string)
    (formData : FormData.t) : Request :=
  DELETE_cancel_service_changes getCsrfTokenHeader project_slug service_slug
    (default "" (FormData.get "change_id" formData)).

Definition createEnvVariable (project_slug service_slug : string) (formData : FormData.t)
  : Action ActionResult :=
  let userData := userData_of formData in
  r ← fetch (createEnvVariable_request project_slug service_slug formData);
  match ApiResponse.error r with
  | Some errors => mret (errors_userData errors userData)
  | None =>
      match ApiResponse.data r with
      | Some data => _ ← invalidateQueries project_slug service_slug; mret (data_result data)
      | None => mret undefined
      end
  end.

Definition updateEnvVariable (project_slug service_slug : string) (formData : FormData.t)
  : Action ActionResult :=
  let userData := userData_of formData in
  r ← fetch (updateEnvVariable_request project_slug service_slug formData);
  match ApiResponse.error r with
  | Some errors => mret (errors_userData errors userData)
  | None =>
      match ApiResponse.data r with
      | Some data => _ ← invalidateQueries project_slug service_slug; mret (data_result data)
      | None => mret undefined
      end
  end.

(** [error.errors.map((err) => err.detail).join(" ")] *)
Definition fullErrorMessage (error : ApiError.t) : string :=
  join " " (ApiError.detail <$> ApiError.errors error).

Definition deleteEnvVariable (project_slug service_slug : string) (formData : FormData.t)
  : Action ActionResult :=
  toasId ← toast_loading "Sending change request...";
  r ← fetch (deleteEnvVariable_request project_slug service_slug formData);
  match ApiResponse.error r with
  | Some error =>
      _ ← show (toast_error_call toasId "Error" (fullErrorMessage error));
      mret undefined
  | None =>
      _ ← invalidateQueries project_slug service_slug;
      _ ← show (toast_success_call toasId "Success" "Done");
      mret undefined
  end.

Definition cancelEnvVariable (project_slug service_slug : string) (formData : FormData.t)
  : Action ActionResult :=
  toasId ← toast_loading "Cancelling env variable change...";
  r ← fetch (cancelEnvVariable_request project_slug service_slug formData);
  match ApiResponse.error r with
  | Some error =>
      _ ← show (toast_error_call toasId "Error" (fullErrorMessage error));
      mret undefined
  | None =>
      _ ← invalidateQueries project_slug service_slug;
      _ ← show (toast_success_call toasId "Success" "Done");
      mret undefined
  end.

(** The [switch] on the [intent] of the submitted form. *)
Definition clientAction (projectSlug serviceSlug : string) (formData : FormData.t)
  : Action Outcome :=
  match FormData.get "intent" formData with
  | Some "create-env-variable" =>
      returned <$> createEnvVariable projectSlug serviceSlug formData
  | Some "update-env-variable" =>
      returned <$> updateEnvVariable projectSlug serviceSlug formData
  | Some "cancel-env-change" =>
      returned <$> cancelEnvVariable projectSlug serviceSlug formData
  | Some "delete-env-variable" =>
      returned <$> deleteEnvVariable projectSlug serviceSlug formData
  | _ => mret (thrown "Unexpected intent")
  end.

End actions.
End Actions.

(** ** The service layout: header image and deploy form *)

(** [s.includes(searchString)] *)
Fixpoint includes (searchString s : string) : bool :=
  String.prefix searchString s
  || match s with
     | EmptyString => false
     | String _ s' => includes searchString s'
     end.

(** Truthiness of a string: every string but the empty one. *)
Definition truthy (s : string) : bool := bool_decide (s ≠ "").

Inductive FetcherState := idle | submitting | loading.

#[global] Instance FetcherState_eq_dec : EqDecision FetcherState.
Proof. solve_decision. Defined.

Module SubmitButton.
Record t := mk { isPending : bool; variant : string; children : string }.
End SubmitButton.

(** The children of the [div] that [DeployServiceForm] returns. *)
Inductive Element :=
| Button_warning (count : nat) (text : string)
| fetcher_Form (method action : string) (submit : SubmitButton.t).

Module ServiceDetailsLayout.
Section layout.
(** [pluralize] of [~/utils] is not part of the sources at hand. *)
Context (pluralize : string → nat → string).

Definition Service := DockerService.t SourceValue.t.

(** [service.image ?? (service.unapplied_changes.filter((change) =>
    change.field === "source")[0]?.new_value as Pick<...>)?.image] *)
Definition resolved_image (service : Service) : option string :=
  match DockerService.image service with
  | Some image => Some image
  | None =>
      change ← head (filter (λ change, Change.field change = "source")
                            (DockerService.unapplied_changes service));
      new_value ← Change.new_value change;
      SourceValue.image new_value
  end.

(** [serviceImage] after
    [if (serviceImage && !serviceImage.includes(":")) serviceImage += ":latest"]:
    the text of the header. *)
Definition serviceImage (service : Service) : option string :=
  match resolved_image service with
  | Some image =>
      if truthy image && negb (includes ":" image)
      then Some (image +:+ ":latest")
      else Some image
  | None => None
  end.

Definition DeployServiceForm (service : Service) (fetcher_state : FetcherState)
  : list Element :=
  let isDeploying := bool_decide (fetcher_state ≠ idle) in
  let unapplied := length (DockerService.unapplied_changes service) in
  (if Nat.ltb 0 unapplied
   then [Button_warning unapplied (pluralize "unapplied change" unapplied)]
   else [])
  ++ [fetcher_Form "post" "./deploy-service"
        {| SubmitButton.isPending := isDeploying;
           SubmitButton.variant := "secondary";
           SubmitButton.children := if isDeploying then "Deploying" else "Deploy now" |}].

End layout.
End ServiceDetailsLayout.

(** The keys of a list in the order in which they first occur: the
    order in which a [Map] that is empty at the start lists keys set
    one after the other. *)
Fixpoint first_occurrences (ks : list string) : list string :=
  match ks with
  | [] => []
  | k :: ks' => k :: filter (λ k', k' ≠ k) (first_occurrences ks')
  end.

(** ** Sample services

    The committed state of the running example is
    [env_variables = [{id: "e1", key: "A", value: "1"}]]. *)

Module Samples.
Import ServiceEnvVariablesPage.

Definition e1 : EnvVariable.t :=
  {| EnvVariable.id := "e1"; EnvVariable.key := "A"; EnvVariable.value := "1" |}.

Definition A1 : KeyValue.t := {| KeyValue.key := "A"; KeyValue.value := "1" |}.
Definition A2 : KeyValue.t := {| KeyValue.key := "A"; KeyValue.value := "2" |}.
Definition A3 : KeyValue.t := {| KeyValue.key := "A"; KeyValue.value := "3" |}.
Definition Bx : KeyValue.t := {| KeyValue.key := "B"; KeyValue.value := "x" |}.

(** DELETE of the committed item, with the snapshot of its value. *)
Definition delete_e1 : Change :=
  {| Change.id := "c1"; Change.field := "env_variables"; Change.type := DELETE;
     Change.item_id := Some "e1"; Change.new_value := None;
     Change.old_value := Some A1 |}.

Definition update_e1 : Change :=
  {| Change.id := "c1"; Change.field := "env_variables"; Change.type := UPDATE;
     Change.item_id := Some "e1"; Change.new_value := Some A2;
     Change.old_value := Some A1 |}.

Definition update_e1_again : Change :=
  {| Change.id := "c4"; Change.field := "env_variables"; Change.type := UPDATE;
     Change.item_id := Some "e1"; Change.new_value := Some A3;
     Change.old_value := Some A1 |}.

(** ADD as the API stores it: no [item_id], so the page keys the row
    by the id of the change. *)
Definition add_B : Change :=
  {| Change.id := "c2"; Change.field := "env_variables"; Change.type := ADD;
     Change.item_id := None; Change.new_value := Some Bx;
     Change.old_value := None |}.

(** DELETE of the row staged by [add_B]. *)
Definition delete_B : Change :=
  {| Change.id := "c3"; Change.field := "env_variables"; Change.type := DELETE;
     Change.item_id := Some "c2"; Change.new_value := None;
     Change.old_value := Some Bx |}.

(** ADD and DELETE of an item whose id [x1] was minted with the ADD. *)
Definition add_x1 : Change :=
  {| Change.id := "c5"; Change.field := "env_variables"; Change.type := ADD;
     Change.item_id := Some "x1"; Change.new_value := Some Bx;
     Change.old_value := None |}.

Definition delete_x1 : Change :=
  {| Change.id := "c6"; Change.field := "env_variables"; Change.type := DELETE;
     Change.item_id := Some "x1"; Change.new_value := None;
     Change.old_value := Some Bx |}.

(** A change to another field, with no payload the page would read. *)
Definition change_source : Change :=
  {| Change.id := "c0"; Change.field := "source"; Change.type := UPDATE;
     Change.item_id := None; Change.new_value := None; Change.old_value := None |}.

Definition service_with (slug : string) (changes : list Change) : Service :=
  {| DockerService.slug := slug; DockerService.image := Some "nginx:alpine";
     DockerService.env_variables := Some [e1];
     DockerService.unapplied_changes := changes |}.

(** A server that rejects every request, the form of a new variable
    and a client that has done nothing yet. *)
Definition required : ApiError.t :=
  {| ApiError.errors := [{| ApiError.detail := "This field may not be blank." |}] |}.

Definition rejecting_server (r : Request) : ApiResponse.t unit :=
  {| ApiResponse.error := Some required; ApiResponse.data := None |}.

Definition form_B : FormData.t :=
  [("intent", "create-env-variable"); ("key", ""); ("value", "x");
   ("item_id", "e1"); ("change_id", "c1")].

Definition fresh_client : Client.t :=
  {| Client.sent := []; Client.invalidated := []; Client.toasts := [] |}.

End Samples.

(** ** One row of the variables page: [EnVariableRow] *)

Module EnVariableRow.

(** The props: the fields of [EnvVariableUI] with [isLocked] (false
    when not given) and [comment]. *)
Record Props := mk_props {
  row : EnvVariableUI.t;
  isLocked : bool;
  comment : option string
}.

(** The two [useState] cells of the row, both [false] at first. *)
Record State := mk_state { isEnvValueShown : bool; isEditing : bool }.

Definition initial_state : State :=
  {| isEnvValueShown := false; isEditing := false |}.

(** The states of the two fetchers of the row. *)
Record Fetchers := mk_fetchers { cancelFetcher : FetcherState; deleteFetcher : FetcherState }.

(** [id && ...]: an id that is there and is not the empty string. *)
Definition truthy_id (id : option string) : option string :=
  match id with
  | Some i => if truthy i then Some i else None
  | None => None
  end.

(** The text in the value cell:
    [isEnvValueShown ? (value.length > 0 ? value : "<empty>") : "*********"]. *)
Definition value_cell (st : State) (value : string) : string :=
  if isEnvValueShown st
  then (if Nat.ltb 0 (String.length value) then value else "<empty>")
  else "*********".

Inductive Content :=
| EditVariableForm (name value id : string)
| cells (name : string) (comment : option string) (value_text : string).

Inductive MenuItem :=
| Discard_change (disabled : bool)
| Edit
| Remove (disabled : bool).

#[global] Instance MenuItem_eq_dec : EqDecision MenuItem.
Proof. solve_decision. Defined.

(** The block behind [!isLocked && !isEditing]: the two hidden forms,
    each with the inputs it posts, and the items of the menu. *)
Record ActionsView := mk_actions {
  cancel_form : option FormData.t;
  delete_form : option FormData.t;
  menu : list MenuItem
}.

Record View := mk_view {
  background : option ChangeType;
  content : Content;
  actions : option ActionsView
}.

Definition render (props : Props) (fetchers : Fetchers) (st : State) : View :=
  let r := row props in
  {| background := EnvVariableUI.change_type r;
     content :=
       match (if isEditing st then truthy_id (EnvVariableUI.id r) else None) with
       | Some id => EditVariableForm (EnvVariableUI.name r) (EnvVariableUI.value r) id
       | None =>
           cells (EnvVariableUI.name r)
                 (c ← comment props; if truthy c then Some c else None)
                 (value_cell st (EnvVariableUI.value r))
       end;
     actions :=
       if negb (isLocked props) && negb (isEditing st)
       then Some
         {| cancel_form :=
              (λ change_id, [("intent", "cancel-env-change"); ("change_id", change_id)])
                <$> EnvVariableUI.change_id r;
            delete_form :=
              (λ id, [("intent", "delete-env-variable"); ("item_id", id)])
                <$> truthy_id (EnvVariableUI.id r);
            menu :=
              match EnvVariableUI.change_id r with
              | Some _ =>
                  [Discard_change (bool_decide (cancelFetcher fetchers ≠ idle))]
              | None =>
                  match truthy_id (EnvVariableUI.id r) with
                  | Some _ =>
                      [Edit; Remove (bool_decide (deleteFetcher fetchers ≠ idle))]
                  | None => []
                  end
              end |}
       else None |}.

(** The form a menu button names with its [form] attribute. A click on
    the button submits that form and no other, by the default action
    of a button with a form and by
    [e.currentTarget.form?.requestSubmit()] alike; how often one click
    submits it is up to the menubar around the button, which is not
    part of the sources at hand. A disabled button submits nothing and
    [Edit] names no form. *)
Definition button_form (a : ActionsView) (item : MenuItem) : option FormData.t :=
  match item with
  | Discard_change disabled => if disabled then None else cancel_form a
  | Remove disabled => if disabled then None else delete_form a
  | Edit => None
  end.

End EnVariableRow.

(** ** The variables page around its rows *)

Module SystemEnvVariable.
Record t := mk { key : string; value : string; comment : option string }.
End SystemEnvVariable.

Module ServiceEnvVariablesPageView.
Section view.
Context (pluralize : string → nat → string).

Inductive Header :=
| User_defined_service_variables (size : nat) (noun : string)
| No_user_defined_variables.

Record t := mk {
  header : Header;
  system_trigger : nat * string;
  system_rows : list EnVariableRow.Props;
  user_rows : list EnVariableRow.Props;
  separator : bool
}.

(** What the component returns for the map it has built;
    [system_env_variables] is [service.system_env_variables]. *)
Definition view (env_variables : list (string * EnvVariableUI.t))
    (system_env_variables : option (list SystemEnvVariable.t)) : t :=
  let system := default [] system_env_variables in
  let size := JsMap.size env_variables in
  {| header :=
       if Nat.ltb 0 size
       then User_defined_service_variables size (pluralize "variable" size)
       else No_user_defined_variables;
     system_trigger := (length system, pluralize "variable" (length system));
     system_rows :=
       (λ env,
          {| EnVariableRow.row :=
               {| EnvVariableUI.change_id := None;
                  EnvVariableUI.id := None;
                  EnvVariableUI.name := SystemEnvVariable.key env;
                  EnvVariableUI.value := SystemEnvVariable.value env;
                  EnvVariableUI.change_type := None |};
             EnVariableRow.isLocked := true;
             EnVariableRow.comment := SystemEnvVariable.comment env |}) <$> system;
     user_rows :=
       if Nat.ltb 0 size
       then (λ env,
               {| EnVariableRow.row := env;
                  EnVariableRow.isLocked := false;
                  EnVariableRow.comment := None |})
              <$> ServiceEnvVariablesPage.rows env_variables
       else [];
     separator := Nat.ltb 0 size |}.

(** The page of a service; [None] when building the map throws. *)
Definition page (service : ServiceEnvVariablesPage.Service)
    (system_env_variables : option (list SystemEnvVariable.t)) : option t :=
  m ← ServiceEnvVariablesPage.env_variables service;
  Some (view m system_env_variables).

End view.
End ServiceEnvVariablesPageView.

(** ** The two forms of the page *)

Module EnvForms.
Section forms.
Context {Data : Type}.
(** [getFormErrorsFromResponseData] of [~/lib/utils] is not part of the
    sources at hand; neither is the shape of what it returns, so the
    two tests the effects make on it, [errors.new_value?.key] and
    [errors.new_value?.value], are parameters with it. *)
Context {FormErrors : Type}.
Context (getFormErrorsFromResponseData : option ApiError.t → FormErrors).
Context (new_value_key new_value_value : FormErrors → bool).

(** The entries the edit form posts: the hidden [item_id], the two
    inputs as the user left them, and the submit button
    [name="intent" value="update-env-variable"]. *)
Definition EditVariableForm_entries (id key value : string) : FormData.t :=
  [("item_id", id); ("key", key); ("value", value); ("intent", "update-env-variable")].

(** The entries the form for a new variable posts. *)
Definition NewEnvVariableForm_entries (key value : string) : FormData.t :=
  [("key", key); ("value", value); ("intent", "create-env-variable")].

Inductive Effect := focus (input : string) | call_quitEditMode | reset_form.

(** [fetcher.data?.errors] *)
Definition data_errors (data : @Actions.ActionResult Data) : option ApiError.t :=
  match data with
  | Actions.errors_userData errors _ => Some errors
  | _ => None
  end.

(** The inputs the effects focus when the response has errors. *)
Definition focus_on_errors (data : @Actions.ActionResult Data) : list Effect :=
  let errors := getFormErrorsFromResponseData (data_errors data) in
  (if new_value_key errors then [focus "variable-name"] else [])
  ++ (if new_value_value errors then [focus "variable-value"] else []).

(** The [useEffect] of [EditVariableForm]; [fetcher.data] is what
    [clientAction] returned, [undefined] included. *)
Definition EditVariableForm_effect (state : FetcherState)
    (data : @Actions.ActionResult Data) : list Effect :=
  match state, data with
  | idle, Actions.undefined => []
  | idle, Actions.errors_userData _ _ => focus_on_errors data
  | idle, Actions.data_result _ => [call_quitEditMode]
  | _, _ => []
  end.

(** The [useEffect] of [NewEnvVariableForm]. *)
Definition NewEnvVariableForm_effect (state : FetcherState)
    (data : @Actions.ActionResult Data) : list Effect :=
  match state, data with
  | idle, Actions.undefined => []
  | idle, Actions.errors_userData _ _ => focus_on_errors data
  | idle, Actions.data_result _ => [focus "variable-name"; reset_form]
  | _, _ => []
  end.

End forms.
End EnvForms.

(** ** The tabs and the links of the service layout *)

(** [s] ends with [suffix]. *)
Fixpoint endsWith (suffix s : string) : bool :=
  String.eqb s suffix
  || match s with
     | EmptyString => false
     | String _ s' => endsWith suffix s'
     end.

Module ServiceTabs.

Inductive Tab := DEPLOYMENTS | ENV_VARIABLES | SETTINGS.

(** The values of [TABS]. *)
Definition TABS (tab : Tab) : string :=
  match tab with
  | DEPLOYMENTS => "deployments"
  | ENV_VARIABLES => "envVariables"
  | SETTINGS => "settings"
  end.

(** [pathname.match(/word\/?$/)]: the word, then at most one slash,
    then the end of the pathname. *)
Definition match_at_end (word pathname : string) : bool :=
  endsWith word pathname || endsWith (word +:+ "/") pathname.

Definition currentSelectedTab (pathname : string) : Tab :=
  if match_at_end "env-variables" pathname then ENV_VARIABLES
  else if match_at_end "settings" pathname then SETTINGS
  else DEPLOYMENTS.

(** [onValueChange]: where the tabs navigate to, if anywhere. *)
Definition onValueChange (value : string) : option string :=
  if decide (value = TABS DEPLOYMENTS) then Some "."
  else if decide (value = TABS ENV_VARIABLES) then Some "./env-variables"
  else if decide (value = TABS SETTINGS) then Some "./settings"
  else None.

End ServiceTabs.

Module ServiceUrls.
Section urls.
(** The urls of the service and [formatURL], [pluralize] of [~/utils]
    are not part of the sources at hand. *)
Context {URL : Type}.
Context (formatURL : URL → string).
Context (pluralize : string → nat → string).

(** [if (service && service.urls.length > 1) { let [_, ...rest] =
    service.urls; extraServiceUrls = rest; }] *)
Definition extraServiceUrls (urls : list URL) : list URL :=
  if Nat.ltb 1 (length urls)
  then match urls with
       | _ :: rest => rest
       | [] => []
       end
  else [].

Record Popover := mk_popover {
  badge : nat * string;
  links : list string
}.

Record t := mk { link : string; popover : option Popover }.

(** The block under the image, behind [service.urls.length > 0]. *)
Definition block (urls : list URL) : option t :=
  match urls with
  | [] => None
  | first :: _ =>
      Some {| link := formatURL first;
              popover :=
                if Nat.ltb 0 (length (extraServiceUrls urls))
                then Some {| badge := (length urls - 1, pluralize "url" (length urls - 1));
                             links := formatURL <$> extraServiceUrls urls |}
                else None |}
  end.

End urls.
End ServiceUrls.

(** * Properties *)

(** ** The running example, evaluated *)

Section running_example.
Import ServiceEnvVariablesPage.

(** An UPDATE of the committed variable shows in its place. *)
Example update_in_place :
  env_variables (Samples.service_with "web" [Samples.update_e1])
  = Some [("e1", {| EnvVariableUI.change_id := Some "c1";
                    EnvVariableUI.id := Some "e1";
                    EnvVariableUI.name := "A";
                    EnvVariableUI.value := "2";
                    EnvVariableUI.change_type := Some UPDATE |})].
Proof. reflexivity. Qed.

(** An ADD comes after it, under the id of the change. *)
Example update_then_add :
  env_variables (Samples.service_with "web" [Samples.update_e1; Samples.add_B])
  = Some [("e1", {| EnvVariableUI.change_id := Some "c1";
                    EnvVariableUI.id := Some "e1";
                    EnvVariableUI.name := "A";
                    EnvVariableUI.value := "2";
                    EnvVariableUI.change_type := Some UPDATE |});
          ("c2", {| EnvVariableUI.change_id := Some "c2";
                    EnvVariableUI.id := None;
                    EnvVariableUI.name := "B";
                    EnvVariableUI.value := "x";
                    EnvVariableUI.change_type := Some ADD |})].
Proof. reflexivity. Qed.

(** Once the UPDATE is cancelled the committed value is back. *)
Example add_alone :
  env_variables (Samples.service_with "web" [Samples.add_B])
  = Some [("e1", {| EnvVariableUI.change_id := None;
                    EnvVariableUI.id := Some "e1";
                    EnvVariableUI.name := "A";
                    EnvVariableUI.value := "1";
                    EnvVariableUI.change_type := None |});
          ("c2", {| EnvVariableUI.change_id := Some "c2";
                    EnvVariableUI.id := None;
                    EnvVariableUI.name := "B";
                    EnvVariableUI.value := "x";
                    EnvVariableUI.change_type := Some ADD |})].
Proof. reflexivity. Qed.

(** A change to [env_variables] with neither [new_value] nor
    [old_value] stops the render; the same change on another field is
    filtered out before its payload is read. *)
Example missing_payload_throws :
  env_variables
    (Samples.service_with "web"
       [{| Change.id := "c7"; Change.field := "env_variables"; Change.type := UPDATE;
           Change.item_id := Some "e1"; Change.new_value := None;
           Change.old_value := None |}]) = None
  ∧ env_variables (Samples.service_with "web" [Samples.change_source])
    = Some [("e1", committed_entry Samples.e1)].
Proof. split; reflexivity. Qed.

Example image_without_tag :
  ServiceDetailsLayout.serviceImage
    {| DockerService.slug := "web"; DockerService.image := Some "nginx";
       DockerService.env_variables := None;
       DockerService.unapplied_changes := [] |} = Some "nginx:latest".
Proof. reflexivity. Qed.

Example image_from_first_source_change :
  ServiceDetailsLayout.serviceImage
    {| DockerService.slug := "web"; DockerService.image := None;
       DockerService.env_variables := None;
       DockerService.unapplied_changes :=
         [{| Change.id := "c8"; Change.field := "source"; Change.type := UPDATE;
             Change.item_id := None;
             Change.new_value :=
               Some {| SourceValue.image := Some "redis:7";
                       SourceValue.credentials := None |};
             Change.old_value := None |}] |} = Some "redis:7".
Proof. reflexivity. Qed.

Example delete_rejected :
  Actions.clientAction [] Samples.rejecting_server "shop" "web"
    [("intent", "delete-env-variable"); ("item_id", "e1")] Samples.fresh_client
  = (Actions.returned Actions.undefined,
     {| Client.sent :=
          [PUT_request_service_changes [] "shop" "web"
             {| ChangeRequest.type := DELETE;
                ChangeRequest.item_id := Some "e1";
                ChangeRequest.field := "env_variables";
                ChangeRequest.new_value := None |}];
        Client.invalidated := [];
        Client.toasts :=
          [toast_loading_call 0 "Sending change request...";
           toast_error_call 0 "Error" "This field may not be blank."] |}).
Proof. reflexivity. Qed.

Example unknown_intent_throws :
  (Actions.clientAction [] Samples.rejecting_server "shop" "web"
     [("intent", "rename-env-variable")] Samples.fresh_client).1
  = Actions.thrown "Unexpected intent".
Proof. reflexivity. Qed.

End running_example.

(** ** The insertion-ordered map *)

Section JsMap_facts.
Context {V : Type}.
Implicit Types (k : string) (v : V) (m : list (string * V)).

Lemma get_set_eq k v m : JsMap.get k (JsMap.set k v m) = Some v.
Proof.
  induction m as [|[k' v'] m IH]; simpl.
  - by rewrite decide_True.
  - destruct (decide (k' = k)) as [->|Hne]; simpl.
    + by rewrite decide_True.
    + by rewrite decide_False.
Qed.

Lemma get_set_ne k k' v m :
  k ≠ k' → JsMap.get k' (JsMap.set k v m) = JsMap.get k' m.
Proof.
  intros Hne. induction m as [|[k0 v0] m IH]; simpl.
  - by rewrite decide_False.
  - destruct (decide (k0 = k)) as [->|Hk0]; simpl.
    + by rewrite !decide_False.
    + by rewrite IH.
Qed.

Lemma get_None_keys k m : JsMap.get k m = None ↔ k ∉ JsMap.keys m.
Proof.
  unfold JsMap.keys. induction m as [|[k' v'] m IH]; simpl.
  - split; [intros _; apply not_elem_of_nil | done].
  - rewrite not_elem_of_cons. destruct (decide (k' = k)) as [->|Hne].
    + split; [done | by intros [? _]].
    + rewrite IH. split; [auto | by intros [_ ?]].
Qed.

Lemma get_Some_elem k v m : JsMap.get k m = Some v → (k, v) ∈ m.
Proof.
  induction m as [|[k' v'] m IH]; simpl; [done|].
  destruct (decide (k' = k)) as [->|Hne].
  - intros [= ->]. apply elem_of_cons. by left.
  - intros H. apply elem_of_cons. right. auto.
Qed.

Lemma set_fresh k v m : k ∉ JsMap.keys m → JsMap.set k v m = m ++ [(k, v)].
Proof.
  unfold JsMap.keys. induction m as [|[k' v'] m IH]; simpl; [done|].
  rewrite not_elem_of_cons. intros [Hne Hnotin].
  rewrite decide_False by done. f_equal. by apply IH.
Qed.

Lemma keys_set_present k v m :
  k ∈ JsMap.keys m → JsMap.keys (JsMap.set k v m) = JsMap.keys m.
Proof.
  unfold JsMap.keys. induction m as [|[k' v'] m IH]; simpl.
  - by intros ?%elem_of_nil.
  - destruct (decide (k' = k)) as [->|Hne]; simpl; [done|].
    rewrite elem_of_cons. intros [?|Hin]; [congruence|]. f_equal. by apply IH.
Qed.

Lemma elem_of_set k v m p : p ∈ JsMap.set k v m → p = (k, v) ∨ p ∈ m.
Proof.
  induction m as [|[k' v'] m IH]; simpl.
  - rewrite list_elem_of_singleton. auto.
  - destruct (decide (k' = k)) as [->|Hne]; rewrite !elem_of_cons; intuition.
Qed.

Lemma NoDup_keys_set k v m :
  NoDup (JsMap.keys m) → NoDup (JsMap.keys (JsMap.set k v m)).
Proof.
  intros Hnd. destruct (decide (k ∈ JsMap.keys m)) as [Hin|Hnotin].
  - by rewrite keys_set_present.
  - rewrite set_fresh by done. unfold JsMap.keys in *. rewrite fmap_app. simpl.
    apply NoDup_app. split_and!; [done| |apply NoDup_singleton].
    intros x Hx ->%list_elem_of_singleton. done.
Qed.

Lemma elem_get_NoDup k v m :
  NoDup (JsMap.keys m) → (k, v) ∈ m → JsMap.get k m = Some v.
Proof.
  unfold JsMap.keys. induction m as [|[k' v'] m IH]; simpl.
  - by intros _ ?%elem_of_nil.
  - rewrite NoDup_cons, elem_of_cons. intros [Hnotin Hnd] [[= <- <-]|Hin].
    + by rewrite decide_True.
    + rewrite decide_False; [auto|].
      intros ->. apply Hnotin. apply list_elem_of_fmap. by exists (k, v).
Qed.

End JsMap_facts.

(** ** Loops *)

Lemma for_of_app {S A : Type} (body : S → A → option S) (s : S) (l1 l2 : list A) :
  for_of body s (l1 ++ l2) = s' ← for_of body s l1; for_of body s' l2.
Proof.
  revert s. induction l1 as [|x l1 IH]; intros s; simpl; [done|].
  destruct (body s x) as [s'|]; simpl; [apply IH | done].
Qed.

(** ** The merged map of the variables page *)

Section merge_facts.
Import ServiceEnvVariablesPage.
Implicit Types (m v : list (string * EnvVariableUI.t)) (ch c : Change)
  (chs : list Change) (k i : string).

Lemma env_changes_app chs1 chs2 :
  env_changes (chs1 ++ chs2) = env_changes chs1 ++ env_changes chs2.
Proof. apply filter_app. Qed.

Lemma env_changes_cons_env ch chs :
  Change.field ch = "env_variables" → env_changes (ch :: chs) = ch :: env_changes chs.
Proof. intros H. unfold env_changes. by rewrite filter_cons_True. Qed.

Lemma set_change_Some m ch v :
  set_change m ch = Some v ↔
  ∃ e, change_entry ch = Some e ∧ v = JsMap.set (change_key ch) e m.
Proof.
  unfold set_change. destruct (change_entry ch) as [e|]; simpl.
  - split; [intros [= <-]; eauto | intros (e' & [= <-] & ->); done].
  - split; [done | intros (e' & ? & _); done].
Qed.

Lemma change_entry_Some ch e :
  change_entry ch = Some e ↔
  ∃ kv, keyValue ch = Some kv ∧
        e = {| EnvVariableUI.change_id := Some (Change.id ch);
               EnvVariableUI.id := Change.item_id ch;
               EnvVariableUI.name := KeyValue.key kv;
               EnvVariableUI.value := KeyValue.value kv;
               EnvVariableUI.change_type := Some (Change.type ch) |}.
Proof.
  unfold change_entry. destruct (keyValue ch) as [kv|]; simpl.
  - split; [intros [= <-]; eauto | intros (kv' & [= <-] & ->); done].
  - split; [done | intros (kv' & ? & _); done].
Qed.

(** A change that sets another key leaves the entry at [k] alone. *)
Lemma changes_get_other m chs v k :
  for_of set_change m chs = Some v →
  (∀ c, c ∈ chs → change_key c ≠ k) →
  JsMap.get k v = JsMap.get k m.
Proof.
  revert m. induction chs as [|c chs IH]; intros m; simpl.
  - by intros [= <-] _.
  - destruct (set_change m c) as [m'|] eqn:Hc; simpl; [|done].
    intros Hv Hother. apply set_change_Some in Hc as (e & _ & ->).
    rewrite (IH _ Hv).
    + apply get_set_ne. apply Hother, elem_of_cons. by left.
    + intros c' Hc'. apply Hother, elem_of_cons. by right.
Qed.

(** The entry at the key of a change is the one of the last change
    that set that key. *)
Lemma changes_get_last m chs1 ch chs2 v :
  for_of set_change m (chs1 ++ ch :: chs2) = Some v →
  (∀ c, c ∈ chs2 → change_key c ≠ change_key ch) →
  ∃ e, change_entry ch = Some e ∧ JsMap.get (change_key ch) v = Some e.
Proof.
  rewrite for_of_app. destruct (for_of set_change m chs1) as [m1|]; simpl; [|done].
  destruct (set_change m1 ch) as [m2|] eqn:Hch; simpl; [|done].
  intros Hv Hother. apply set_change_Some in Hch as (e & He & ->).
  exists e. split; [done|].
  rewrite (changes_get_other _ _ _ _ Hv Hother). apply get_set_eq.
Qed.

Lemma committed_NoDup (committed : list EnvVariable.t) m :
  NoDup (JsMap.keys m) → NoDup (JsMap.keys (foldl set_committed m committed)).
Proof.
  revert m. induction committed as [|env committed IH]; intros m Hm; simpl; [done|].
  apply IH. by apply NoDup_keys_set.
Qed.

Lemma changes_NoDup m chs v :
  for_of set_change m chs = Some v → NoDup (JsMap.keys m) → NoDup (JsMap.keys v).
Proof.
  revert m. induction chs as [|c chs IH]; intros m; simpl.
  - by intros [= <-].
  - destruct (set_change m c) as [m'|] eqn:Hc; simpl; [|done].
    apply set_change_Some in Hc as (e & _ & ->).
    intros Hv Hm. apply (IH _ Hv). by apply NoDup_keys_set.
Qed.

Lemma merge_NoDup committed changes v :
  merge committed changes = Some v → NoDup (JsMap.keys v).
Proof.
  intros Hv. apply (changes_NoDup _ _ _ Hv), committed_NoDup. constructor.
Qed.

(** The render goes through exactly when every change to
    [env_variables] carries a payload. *)
Lemma changes_total m chs :
  Forall (λ c, is_Some (keyValue c)) chs ↔ is_Some (for_of set_change m chs).
Proof.
  revert m. induction chs as [|c chs IH]; intros m; simpl.
  - split; [eauto | constructor].
  - rewrite Forall_cons. destruct (set_change m c) as [m'|] eqn:Hc; simpl.
    + rewrite <- IH. apply set_change_Some in Hc as (e & He & _).
      apply change_entry_Some in He as (kv & -> & _). split; [by intros [_ ?] | eauto].
    + split; [|by intros [? [=]]]. intros [[kv Hkv] _].
      unfold set_change, change_entry in Hc. by rewrite Hkv in Hc.
Qed.

Lemma merge_total committed changes :
  payloads_present changes ↔ is_Some (merge committed changes).
Proof. apply changes_total. Qed.

End merge_facts.

(** ** What the page shows for a queue of changes *)

Section page_facts.
Import ServiceEnvVariablesPage.
Implicit Types (m v : list (string * EnvVariableUI.t)) (ch c : Change)
  (chs : list Change) (k i : string) (service : Service).

(** The last element that passes a filter splits the list around it. *)
Lemma last_filter_split {A : Type} (P : A → Prop) `{!∀ x, Decision (P x)}
    (l : list A) (x : A) :
  last (filter P l) = Some x →
  ∃ l1 l2, l = l1 ++ x :: l2 ∧ P x ∧ ∀ y, y ∈ l2 → ¬ P y.
Proof.
  induction l as [|y l IH] using rev_ind; [done|].
  rewrite filter_app, filter_cons, filter_nil. destruct (decide (P y)) as [Hy|Hy].
  - rewrite last_snoc. intros [= ->]. exists l, []. split_and!; [done..|].
    by intros z ?%elem_of_nil.
  - rewrite app_nil_r. intros (l1 & l2 & -> & Hx & Hl2)%IH.
    exists l1, (l2 ++ [y]). split_and!; [by rewrite <- app_assoc|done|].
    intros z [?| ->%list_elem_of_singleton]%elem_of_app; auto.
Qed.

(** The entry of the last change to [env_variables] with key [i]. *)
Lemma last_change_entry service m ch i :
  env_variables service = Some m →
  last (filter (λ c, change_key c = i)
               (env_changes (DockerService.unapplied_changes service))) = Some ch →
  ∃ e, change_entry ch = Some e ∧ JsMap.get i m = Some e.
Proof.
  unfold env_variables, merge. intros Hm (l1 & l2 & Hsplit & <- & Hl2)%last_filter_split.
  rewrite Hsplit in Hm. by apply (changes_get_last _ _ _ _ _ Hm).
Qed.

(** C1, as the page has it: an item whose last pending change is a
    DELETE is not left out of the merged map. The map keeps the entry
    at the key of the item; the entry carries the id of the DELETE
    change, the type DELETE and the payload [new_value ?? old_value] of
    that change, and it is one of the rows the page lists. *)
Theorem delete_keeps_entry service m ch i :
  env_variables service = Some m →
  last (filter (λ c, change_key c = i)
               (env_changes (DockerService.unapplied_changes service))) = Some ch →
  Change.type ch = DELETE →
  ∃ kv, keyValue ch = Some kv ∧
    JsMap.get i m =
      Some {| EnvVariableUI.change_id := Some (Change.id ch);
              EnvVariableUI.id := Change.item_id ch;
              EnvVariableUI.name := KeyValue.key kv;
              EnvVariableUI.value := KeyValue.value kv;
              EnvVariableUI.change_type := Some DELETE |} ∧
    {| EnvVariableUI.change_id := Some (Change.id ch);
       EnvVariableUI.id := Change.item_id ch;
       EnvVariableUI.name := KeyValue.key kv;
       EnvVariableUI.value := KeyValue.value kv;
       EnvVariableUI.change_type := Some DELETE |} ∈ rows m.
Proof.
  intros Hm Hlast Hdel.
  destruct (last_change_entry _ _ _ _ Hm Hlast) as (e & He & Hget).
  apply change_entry_Some in He as (kv & Hkv & ->). rewrite Hdel in Hget.
  exists kv. split_and!; [done..|].
  apply get_Some_elem in Hget. unfold rows, JsMap.entries.
  apply list_elem_of_fmap. by eexists (_, _).
Qed.

Lemma delete_keeps_entry_witness :
  ∃ kv, keyValue Samples.delete_e1 = Some kv ∧
    JsMap.get "e1" [("e1", {| EnvVariableUI.change_id := Some "c1";
                              EnvVariableUI.id := Some "e1";
                              EnvVariableUI.name := "A";
                              EnvVariableUI.value := "1";
                              EnvVariableUI.change_type := Some DELETE |})] =
      Some {| EnvVariableUI.change_id := Some "c1";
              EnvVariableUI.id := Some "e1";
              EnvVariableUI.name := KeyValue.key kv;
              EnvVariableUI.value := KeyValue.value kv;
              EnvVariableUI.change_type := Some DELETE |} ∧
    {| EnvVariableUI.change_id := Some "c1";
       EnvVariableUI.id := Some "e1";
       EnvVariableUI.name := KeyValue.key kv;
       EnvVariableUI.value := KeyValue.value kv;
       EnvVariableUI.change_type := Some DELETE |} ∈
      rows [("e1", {| EnvVariableUI.change_id := Some "c1";
                      EnvVariableUI.id := Some "e1";
                      EnvVariableUI.name := "A";
                      EnvVariableUI.value := "1";
                      EnvVariableUI.change_type := Some DELETE |})].
Proof.
  apply (delete_keeps_entry
           (Samples.service_with "web" [Samples.change_source; Samples.delete_e1])
           _ Samples.delete_e1 "e1"); reflexivity.
Defined.

(** C1, as stated, fails on the running example: after a DELETE of the
    committed item [e1] the merged map still has the entry of [e1],
    marked DELETE, so it is not true that no row belongs to an item
    whose last pending change is a DELETE. *)
Lemma delete_not_omitted :
  env_variables (Samples.service_with "web" [Samples.delete_e1]) =
    Some [("e1", {| EnvVariableUI.change_id := Some "c1";
                    EnvVariableUI.id := Some "e1";
                    EnvVariableUI.name := "A";
                    EnvVariableUI.value := "1";
                    EnvVariableUI.change_type := Some DELETE |})] ∧
  ¬ (∀ service m ch i,
       env_variables service = Some m →
       last (filter (λ c, Change.item_id c = Some i)
                    (env_changes (DockerService.unapplied_changes service))) = Some ch →
       Change.type ch = DELETE →
       JsMap.get i m = None ∧ ∀ e, e ∈ rows m → EnvVariableUI.id e ≠ Some i).
Proof.
  split; [reflexivity|]. intros Hclaim.
  destruct (Hclaim (Samples.service_with "web" [Samples.delete_e1]) _
              Samples.delete_e1 "e1" eq_refl eq_refl eq_refl) as [Hget _].
  discriminate Hget.
Qed.

(** Where the entries of the merged map come from. *)
Lemma committed_origin (committed : list EnvVariable.t) m p :
  p ∈ foldl set_committed m committed →
  p ∈ m ∨ ∃ env, env ∈ committed ∧ p = (EnvVariable.id env, committed_entry env).
Proof.
  revert m. induction committed as [|env committed IH]; intros m; simpl; [auto|].
  intros [[-> |Hin]%elem_of_set|(env' & Hin & ->)]%IH.
  - right. exists env. split; [apply elem_of_cons; by left | done].
  - by left.
  - right. exists env'. split; [apply elem_of_cons; by right | done].
Qed.

Lemma changes_origin m chs v p :
  for_of set_change m chs = Some v →
  p ∈ v →
  p ∈ m ∨ ∃ ch, ch ∈ chs ∧ change_entry ch = Some p.2 ∧ p.1 = change_key ch.
Proof.
  revert m. induction chs as [|c chs IH]; intros m; simpl.
  - intros [= <-]. auto.
  - destruct (set_change m c) as [m'|] eqn:Hc; simpl; [|done].
    apply set_change_Some in Hc as (e & He & ->).
    intros Hv [[-> |Hin]%elem_of_set|(ch & Hin & Hch)]%(IH _ Hv).
    + right. exists c. split; [apply elem_of_cons; by left | done].
    + by left.
    + right. exists ch. split; [apply elem_of_cons; by right | done].
Qed.

Lemma merge_origin committed changes m p :
  merge committed changes = Some m →
  p ∈ m →
  (∃ env, env ∈ committed ∧ p = (EnvVariable.id env, committed_entry env))
  ∨ (∃ ch, ch ∈ env_changes changes ∧ change_entry ch = Some p.2 ∧ p.1 = change_key ch).
Proof.
  intros Hm [Hin|Hin]%(changes_origin _ _ _ _ Hm); [|by right].
  apply committed_origin in Hin as [Hin%elem_of_nil|Hin]; [done | by left].
Qed.

(** An entry that names an item sits at the key of that item. *)
Lemma merge_keyed committed changes m k e i :
  merge committed changes = Some m →
  (k, e) ∈ m → EnvVariableUI.id e = Some i → k = i.
Proof.
  intros Hm Hin Hid.
  destruct (merge_origin _ _ _ _ Hm Hin) as [(env & _ & Heq)|(ch & _ & He & Hk)];
    simpl in *.
  - injection Heq as -> ->. simpl in Hid. congruence.
  - apply change_entry_Some in He as (kv & _ & ->). simpl in Hid.
    subst k. unfold change_key. by rewrite Hid.
Qed.

Lemma filter_unique {A : Type} (P : A → Prop) `{!∀ x, Decision (P x)}
    (l : list A) (x : A) :
  NoDup l → x ∈ l → P x → (∀ y, y ∈ l → P y → y = x) → filter P l = [x].
Proof.
  induction l as [|y l IH]; [by intros _ ?%elem_of_nil|].
  rewrite NoDup_cons. intros [Hy Hnd] Hin HPx Huniq.
  assert (Htail : ∀ z, z ∈ l → P z → z = x).
  { intros z Hz. apply Huniq, elem_of_cons. by right. }
  destruct (decide (P y)) as [HPy|HPy].
  - assert (y = x) as -> by (apply Huniq; [apply elem_of_cons; by left | done]).
    rewrite filter_cons_True by done. f_equal.
    destruct (filter P l) as [|z l'] eqn:Hf; [done|].
    assert (Hz : z ∈ filter P l) by (rewrite Hf; apply elem_of_cons; by left).
    apply list_elem_of_filter in Hz as [HPz Hz].
    rewrite (Htail z Hz HPz) in Hz. done.
  - rewrite filter_cons_False by done.
    apply IH; [done| |done..]. apply elem_of_cons in Hin as [->|?]; done.
Qed.

Lemma filter_fmap {A B : Type} (f : A → B) (P : B → Prop) `{!∀ y, Decision (P y)}
    (l : list A) :
  filter P (f <$> l) = f <$> filter (λ x, P (f x)) l.
Proof.
  induction l as [|x l IH]; [done|]. rewrite fmap_cons, !filter_cons.
  destruct (decide (P (f x))); by rewrite IH.
Qed.

(** C3: when two changes of the queue target the same item of
    [env_variables], the merged map has exactly one entry for that
    item, under its key and among the rows, and that entry is the one
    of the later change: its change id, its type and its payload. The
    later change is the last one of the queue that sets that key. *)
Theorem later_change_supersedes service m q1 c1 q2 c2 q3 i :
  env_variables service = Some m →
  DockerService.unapplied_changes service = q1 ++ c1 :: q2 ++ c2 :: q3 →
  Change.field c1 = "env_variables" → Change.item_id c1 = Some i →
  Change.field c2 = "env_variables" → Change.item_id c2 = Some i →
  (∀ c, c ∈ q3 → Change.field c = "env_variables" → change_key c ≠ i) →
  length (filter (λ p, p.1 = i) (JsMap.entries m)) = 1 ∧
  length (filter (λ e, EnvVariableUI.id e = Some i) (rows m)) = 1 ∧
  ∃ kv, keyValue c2 = Some kv ∧
    JsMap.get i m =
      Some {| EnvVariableUI.change_id := Some (Change.id c2);
              EnvVariableUI.id := Some i;
              EnvVariableUI.name := KeyValue.key kv;
              EnvVariableUI.value := KeyValue.value kv;
              EnvVariableUI.change_type := Some (Change.type c2) |}.
Proof.
  intros Hm Hq _ _ Hf2 Hi2 Hq3.
  assert (Hkey : change_key c2 = i) by (unfold change_key; by rewrite Hi2).
  assert (Hget : ∃ e, change_entry c2 = Some e ∧ JsMap.get i m = Some e).
  { unfold env_variables, merge in Hm. rewrite Hq in Hm.
    change (q1 ++ c1 :: q2 ++ c2 :: q3) with (q1 ++ (c1 :: q2) ++ c2 :: q3) in Hm.
    rewrite (app_assoc q1 (c1 :: q2)), env_changes_app in Hm.
    rewrite (env_changes_cons_env c2) in Hm by done.
    rewrite <- Hkey. apply (changes_get_last _ _ _ _ _ Hm).
    intros c [Hc Hin]%list_elem_of_filter. rewrite Hkey. by apply Hq3. }
  destruct Hget as (e & He & Hget).
  pose proof (merge_NoDup _ _ _ Hm) as Hnd.
  assert (Hentry : filter (λ p, p.1 = i) m = [(i, e)]).
  { apply filter_unique.
    - by apply NoDup_fmap_1 with (f := fst).
    - by apply get_Some_elem.
    - done.
    - intros [k e'] Hin Hk. simpl in Hk. subst k. f_equal.
      apply (elem_get_NoDup _ _ _ Hnd) in Hin. congruence. }
  assert (Huniq : ∀ p, p ∈ m → p.1 = i → p = (i, e)).
  { intros [k e'] Hin Hk. simpl in Hk. subst k. f_equal.
    apply (elem_get_NoDup _ _ _ Hnd) in Hin. congruence. }
  assert (Hm_nd : NoDup m) by (by apply NoDup_fmap_1 with (f := fst)).
  pose proof (get_Some_elem _ _ _ Hget) as Hin.
  apply change_entry_Some in He as (kv & Hkv & ->). rewrite Hi2 in *.
  split_and!.
  - unfold JsMap.entries. by rewrite (filter_unique _ _ _ Hm_nd Hin eq_refl Huniq).
  - unfold rows, JsMap.entries. rewrite filter_fmap.
    erewrite (filter_unique _ _ _ Hm_nd Hin); [done..|].
    intros [k e'] Hin' Hid. apply Huniq; [done|]. simpl in *.
    by apply (merge_keyed _ _ _ _ _ _ Hm Hin').
  - by exists kv.
Qed.

Lemma later_change_supersedes_witness :
  length (filter (λ p, p.1 = "e1")
            (JsMap.entries
               [("e1", {| EnvVariableUI.change_id := Some "c4";
                          EnvVariableUI.id := Some "e1";
                          EnvVariableUI.name := "A";
                          EnvVariableUI.value := "3";
                          EnvVariableUI.change_type := Some UPDATE |});
                ("c2", {| EnvVariableUI.change_id := Some "c2";
                          EnvVariableUI.id := None;
                          EnvVariableUI.name := "B";
                          EnvVariableUI.value := "x";
                          EnvVariableUI.change_type := Some ADD |})])) = 1 ∧
  length (filter (λ e, EnvVariableUI.id e = Some "e1")
            (rows
               [("e1", {| EnvVariableUI.change_id := Some "c4";
                          EnvVariableUI.id := Some "e1";
                          EnvVariableUI.name := "A";
                          EnvVariableUI.value := "3";
                          EnvVariableUI.change_type := Some UPDATE |});
                ("c2", {| EnvVariableUI.change_id := Some "c2";
                          EnvVariableUI.id := None;
                          EnvVariableUI.name := "B";
                          EnvVariableUI.value := "x";
                          EnvVariableUI.change_type := Some ADD |})])) = 1 ∧
  ∃ kv, keyValue Samples.update_e1_again = Some kv ∧
    JsMap.get "e1"
      [("e1", {| EnvVariableUI.change_id := Some "c4";
                 EnvVariableUI.id := Some "e1";
                 EnvVariableUI.name := "A";
                 EnvVariableUI.value := "3";
                 EnvVariableUI.change_type := Some UPDATE |});
       ("c2", {| EnvVariableUI.change_id := Some "c2";
                 EnvVariableUI.id := None;
                 EnvVariableUI.name := "B";
                 EnvVariableUI.value := "x";
                 EnvVariableUI.change_type := Some ADD |})] =
      Some {| EnvVariableUI.change_id := Some "c4";
              EnvVariableUI.id := Some "e1";
              EnvVariableUI.name := KeyValue.key kv;
              EnvVariableUI.value := KeyValue.value kv;
              EnvVariableUI.change_type := Some UPDATE |}.
Proof.
  apply (later_change_supersedes
           (Samples.service_with "web"
              [Samples.change_source; Samples.update_e1; Samples.add_B;
               Samples.update_e1_again; Samples.change_source])
           _ [Samples.change_source] Samples.update_e1 [Samples.add_B]
           Samples.update_e1_again [Samples.change_source] "e1");
    try reflexivity.
  intros c ->%list_elem_of_singleton. discriminate.
Defined.

(** C10: a row of the merged map that carries a change id is the row
    of a change to [env_variables] of the queue with that id, placed
    under the key of that change, and its name and value are the key
    and value of the [new_value] of the change when there is one and of
    its [old_value] otherwise; so a DELETE, which has no [new_value],
    shows the snapshot of the value it removes. *)
Theorem change_row_payload service m k e cid :
  env_variables service = Some m →
  (k, e) ∈ JsMap.entries m →
  EnvVariableUI.change_id e = Some cid →
  ∃ ch, ch ∈ DockerService.unapplied_changes service ∧
    Change.field ch = "env_variables" ∧
    Change.id ch = cid ∧
    k = change_key ch ∧
    EnvVariableUI.change_type e = Some (Change.type ch) ∧
    match Change.new_value ch with
    | Some new_value =>
        EnvVariableUI.name e = KeyValue.key new_value ∧
        EnvVariableUI.value e = KeyValue.value new_value
    | None =>
        ∃ old_value, Change.old_value ch = Some old_value ∧
          EnvVariableUI.name e = KeyValue.key old_value ∧
          EnvVariableUI.value e = KeyValue.value old_value
    end.
Proof.
  intros Hm Hin Hcid.
  destruct (merge_origin _ _ _ _ Hm Hin) as [(env & _ & Heq)|(ch & Hch & He & Hk)];
    simpl in *.
  - injection Heq as -> ->. discriminate Hcid.
  - apply list_elem_of_filter in Hch as [Hfield Hch].
    apply change_entry_Some in He as (kv & Hkv & ->). simpl in *.
    exists ch. split_and!; [done|done|congruence|done|done|].
    unfold keyValue in Hkv. destruct (Change.new_value ch) as [nv|].
    + by injection Hkv as ->.
    + by exists kv.
Qed.

Lemma change_row_payload_witness :
  ∃ ch, ch ∈ [Samples.change_source; Samples.delete_e1; Samples.add_B] ∧
    Change.field ch = "env_variables" ∧
    Change.id ch = "c1" ∧
    "e1" = change_key ch ∧
    Some DELETE = Some (Change.type ch) ∧
    match Change.new_value ch with
    | Some new_value => "A" = KeyValue.key new_value ∧ "1" = KeyValue.value new_value
    | None =>
        ∃ old_value, Change.old_value ch = Some old_value ∧
          "A" = KeyValue.key old_value ∧ "1" = KeyValue.value old_value
    end.
Proof.
  eapply (change_row_payload
           (Samples.service_with "web"
              [Samples.change_source; Samples.delete_e1; Samples.add_B])
           _ "e1"
           {| EnvVariableUI.change_id := Some "c1";
              EnvVariableUI.id := Some "e1";
              EnvVariableUI.name := "A";
              EnvVariableUI.value := "1";
              EnvVariableUI.change_type := Some DELETE |}
           "c1");
    [reflexivity | | reflexivity].
  apply elem_of_cons. by left.
Defined.

Lemma set_last k (e e' : EnvVariableUI.t) m :
  k ∉ JsMap.keys m → JsMap.set k e' (m ++ [(k, e)]) = m ++ [(k, e')].
Proof.
  unfold JsMap.keys. induction m as [|[k0 e0] m IH]; simpl.
  - intros _. by rewrite decide_True.
  - rewrite not_elem_of_cons. intros [Hne Hnotin].
    rewrite decide_False by done. f_equal. by apply IH.
Qed.

(** C2, as the page has it: an ADD of an item that is neither
    committed nor staged, followed by a DELETE of that item, does not
    give back the merged map of the queue without the two changes. It
    gives that map followed by one more entry under the key of the
    item: the row of the DELETE, with the id of the DELETE change, the
    type DELETE and the payload of the DELETE. *)
Theorem add_then_delete_leaves_delete_row committed queue add del m kv :
  merge committed queue = Some m →
  Change.field add = "env_variables" → Change.type add = ADD →
  Change.field del = "env_variables" → Change.type del = DELETE →
  change_key del = change_key add →
  change_key add ∉ JsMap.keys m →
  is_Some (keyValue add) →
  keyValue del = Some kv →
  merge committed (queue ++ [add; del]) =
    Some (m ++ [(change_key add,
                 {| EnvVariableUI.change_id := Some (Change.id del);
                    EnvVariableUI.id := Change.item_id del;
                    EnvVariableUI.name := KeyValue.key kv;
                    EnvVariableUI.value := KeyValue.value kv;
                    EnvVariableUI.change_type := Some DELETE |})]).
Proof.
  intros Hm Hfa _ Hfd Htd Hkey Hfresh [kva Hkva] Hkvd. unfold merge in *.
  rewrite env_changes_app, for_of_app, Hm.
  rewrite (env_changes_cons_env add) by done.
  rewrite (env_changes_cons_env del) by done.
  unfold env_changes. rewrite filter_nil. simpl.
  unfold set_change, change_entry. rewrite Hkva, Hkvd. simpl.
  rewrite Hkey, Htd, (set_fresh _ _ m) by done. by rewrite set_last.
Qed.

Lemma add_then_delete_leaves_delete_row_witness :
  merge [Samples.e1] ([Samples.update_e1] ++ [Samples.add_B; Samples.delete_B]) =
    Some ([("e1", {| EnvVariableUI.change_id := Some "c1";
                     EnvVariableUI.id := Some "e1";
                     EnvVariableUI.name := "A";
                     EnvVariableUI.value := "2";
                     EnvVariableUI.change_type := Some UPDATE |})]
          ++ [("c2", {| EnvVariableUI.change_id := Some "c3";
                        EnvVariableUI.id := Some "c2";
                        EnvVariableUI.name := "B";
                        EnvVariableUI.value := "x";
                        EnvVariableUI.change_type := Some DELETE |})]).
Proof.
  apply (add_then_delete_leaves_delete_row [Samples.e1] [Samples.update_e1]
           Samples.add_B Samples.delete_B _ Samples.Bx); try reflexivity.
  - unfold JsMap.keys. simpl. intros [?|?%elem_of_nil]%elem_of_cons; done.
  - by exists Samples.Bx.
Defined.

(** C2, as stated, fails on the running example: with the ADD of a new
    variable and the DELETE of the row it staged in the queue, the
    merged map is not the one of the empty queue; it has the row of the
    DELETE after the committed one. The same holds when the ADD
    carries the id of the item it creates. *)
Lemma add_then_delete_not_cancelled :
  merge [Samples.e1] [Samples.add_B; Samples.delete_B] =
    Some [("e1", {| EnvVariableUI.change_id := None;
                    EnvVariableUI.id := Some "e1";
                    EnvVariableUI.name := "A";
                    EnvVariableUI.value := "1";
                    EnvVariableUI.change_type := None |});
          ("c2", {| EnvVariableUI.change_id := Some "c3";
                    EnvVariableUI.id := Some "c2";
                    EnvVariableUI.name := "B";
                    EnvVariableUI.value := "x";
                    EnvVariableUI.change_type := Some DELETE |})] ∧
  merge [Samples.e1] [Samples.add_B; Samples.delete_B] ≠ merge [Samples.e1] [] ∧
  merge [Samples.e1] [Samples.add_x1; Samples.delete_x1] ≠ merge [Samples.e1] [].
Proof. split_and!; [reflexivity | discriminate..]. Qed.

(** *** The order of the merged map *)

Lemma first_occurrences_filter (P : string → Prop) `{!∀ k, Decision (P k)}
    (ks : list string) :
  first_occurrences (filter P ks) = filter P (first_occurrences ks).
Proof.
  induction ks as [|k ks IH]; [done|]. simpl.
  rewrite !filter_cons. destruct (decide (P k)) as [HP|HP]; simpl.
  - f_equal. rewrite IH, !list_filter_filter. apply list_filter_iff. tauto.
  - rewrite IH, list_filter_filter. apply list_filter_iff.
    intros k'. split; [|tauto]. intros Hk'. split; [done|]. by intros ->.
Qed.

Lemma first_occurrences_elem k (ks : list string) :
  k ∈ first_occurrences ks ↔ k ∈ ks.
Proof.
  induction ks as [|k0 ks IH]; [done|]. simpl.
  rewrite !elem_of_cons, list_elem_of_filter, IH.
  destruct (decide (k = k0)); tauto.
Qed.

Lemma first_occurrences_NoDup (ks : list string) :
  NoDup ks → first_occurrences ks = ks.
Proof.
  induction 1 as [|k ks Hk Hnd IH]; [done|]. simpl. rewrite IH. f_equal.
  clear IH Hnd. induction ks as [|k' ks IH]; [done|].
  apply not_elem_of_cons in Hk as [Hne Hk].
  rewrite filter_cons_True by done. f_equal. auto.
Qed.

(** One [set] more, seen from the keys that were there before it. *)
Lemma keys_set_step k (e : EnvVariableUI.t) m (rest : list string) :
  JsMap.keys (JsMap.set k e m)
    ++ first_occurrences (filter (λ k', k' ∉ JsMap.keys (JsMap.set k e m)) rest)
  = JsMap.keys m
    ++ first_occurrences (filter (λ k', k' ∉ JsMap.keys m) (k :: rest)).
Proof.
  destruct (decide (k ∈ JsMap.keys m)) as [Hin|Hnotin].
  - rewrite keys_set_present by done.
    rewrite (filter_cons_False _ k); [done|]. by intros [].
  - rewrite set_fresh by done. rewrite filter_cons_True by done.
    unfold JsMap.keys at 1. rewrite fmap_app, <- app_assoc. simpl. do 2 f_equal.
    rewrite <- first_occurrences_filter, list_filter_filter. f_equal.
    apply list_filter_iff. intros k'. unfold JsMap.keys.
    rewrite fmap_app, not_elem_of_app. simpl.
    rewrite not_elem_of_cons. split; [intros [? [? _]]; done|].
    intros [? ?]. split_and!; [done..|apply not_elem_of_nil].
Qed.

Lemma committed_keys (committed : list EnvVariable.t) m :
  JsMap.keys (foldl set_committed m committed)
  = JsMap.keys m
    ++ first_occurrences (filter (λ k, k ∉ JsMap.keys m) (EnvVariable.id <$> committed)).
Proof.
  revert m. induction committed as [|env committed IH]; intros m; simpl.
  - by rewrite app_nil_r.
  - rewrite IH. apply keys_set_step.
Qed.

Lemma changes_keys m chs v :
  for_of set_change m chs = Some v →
  JsMap.keys v
  = JsMap.keys m
    ++ first_occurrences (filter (λ k, k ∉ JsMap.keys m) (change_key <$> chs)).
Proof.
  revert m. induction chs as [|c chs IH]; intros m; simpl.
  - intros [= <-]. by rewrite app_nil_r.
  - destruct (set_change m c) as [m'|] eqn:Hc; simpl; [|done].
    apply set_change_Some in Hc as (e & _ & ->).
    intros Hv. rewrite (IH _ Hv). apply keys_set_step.
Qed.

(** The keys of the merged map, for any committed list and queue. *)
Lemma merged_keys committed changes m :
  merge committed changes = Some m →
  JsMap.keys m
  = first_occurrences (EnvVariable.id <$> committed)
    ++ first_occurrences
         (filter (λ k, k ∉ EnvVariable.id <$> committed)
                 (change_key <$> env_changes changes)).
Proof.
  intros Hm. rewrite (changes_keys _ _ _ Hm), committed_keys. simpl.
  rewrite (list_filter_iff _ (λ _, True)) by (intros k; split; [done|intros _; apply not_elem_of_nil]).
  assert (Hall : ∀ ks : list string, filter (λ _, True) ks = ks).
  { induction ks as [|k ks IH]; [done|]. rewrite filter_cons_True by done. by f_equal. }
  rewrite Hall. do 2 f_equal. apply list_filter_iff. intros k.
  by rewrite first_occurrences_elem.
Qed.

(** *** The two loops as a transition system *)

Lemma step_deterministic (s s1 s2 : LoopState) : step s s1 → step s s2 → s1 = s2.
Proof.
  intros H1 H2. inversion H1; subst; inversion H2; subst; congruence.
Qed.

Lemma final_no_step m (s : LoopState) : ¬ step (m, [], []) s.
Proof. intros H. inversion H. Qed.

Lemma run_deterministic (s : LoopState) m1 m2 :
  rtc step s (m1, [], []) → rtc step s (m2, [], []) → m1 = m2.
Proof.
  intros H1. remember (m1, [], []) as fin eqn:Hfin. revert m2.
  induction H1 as [s|s s' fin Hstep Hrest IH]; intros m2 H2; subst.
  - apply rtc_inv in H2 as [[= ->]|(s' & Hstep & _)]; [done|].
    by apply final_no_step in Hstep.
  - apply rtc_inv in H2 as [->|(s'' & Hstep' & Hrest')].
    + by apply final_no_step in Hstep.
    + rewrite <- (step_deterministic _ _ _ Hstep Hstep') in Hrest'. by apply IH.
Qed.

(** The loops end with [m] exactly when the function returns [m]. *)
Lemma run_changes m chs v :
  rtc step (m, [], chs) (v, [], []) ↔ for_of set_change m chs = Some v.
Proof.
  revert m. induction chs as [|c chs IH]; intros m; simpl.
  - split.
    + intros [[= ->]|(s' & Hstep & _)]%rtc_inv; [done|]. inversion Hstep.
    + intros [= ->]. apply rtc_refl.
  - split.
    + intros [[=]|(s' & Hstep & Hrest)]%rtc_inv.
      inversion Hstep as [|m0 c0 chs0 m' Hset]; subst.
      rewrite Hset. simpl. by apply IH.
    + destruct (set_change m c) as [m'|] eqn:Hset; simpl; [|done].
      intros Hv. eapply rtc_l; [by apply step_change | by apply IH].
Qed.

Lemma run_committed m (committed : list EnvVariable.t) chs v :
  rtc step (m, committed, chs) (v, [], [])
  ↔ for_of set_change (foldl set_committed m committed) chs = Some v.
Proof.
  revert m. induction committed as [|env committed IH]; intros m; simpl.
  - apply run_changes.
  - rewrite <- IH. split.
    + intros [[=]|(s' & Hstep & Hrest)]%rtc_inv. by inversion Hstep; subst.
    + intros Hrest. eapply rtc_l; [apply step_committed | done].
Qed.

Lemma renders_env_variables service m :
  renders service m ↔ env_variables service = Some m.
Proof. apply run_committed. Qed.

(** C5: the merged map is a function of the committed variables and
    of the queue alone. Two renders from the same [env_variables] and
    the same [unapplied_changes] give the same result of the merge
    (the same map, or the same failure), and any two runs of the loops
    that reach the end do so with the same entries, payloads and
    order. *)
Theorem merge_deterministic service1 service2 :
  DockerService.env_variables service1 = DockerService.env_variables service2 →
  DockerService.unapplied_changes service1 = DockerService.unapplied_changes service2 →
  env_variables service1 = env_variables service2 ∧
  ∀ m1 m2, renders service1 m1 → renders service2 m2 → m1 = m2.
Proof.
  intros Henv Hq. split.
  - unfold env_variables. by rewrite Henv, Hq.
  - unfold renders. rewrite Henv, Hq. intros m1 m2. apply run_deterministic.
Qed.

Lemma merge_deterministic_witness :
  env_variables (Samples.service_with "web" [Samples.update_e1; Samples.add_B])
  = env_variables (Samples.service_with "worker" [Samples.update_e1; Samples.add_B]) ∧
  ∀ m1 m2,
    renders (Samples.service_with "web" [Samples.update_e1; Samples.add_B]) m1 →
    renders (Samples.service_with "worker" [Samples.update_e1; Samples.add_B]) m2 →
    m1 = m2.
Proof.
  apply (merge_deterministic
           (Samples.service_with "web" [Samples.update_e1; Samples.add_B])
           (Samples.service_with "worker" [Samples.update_e1; Samples.add_B]));
    reflexivity.
Defined.

(** The loops do reach their end whenever the changes carry payloads. *)
Lemma renders_total service :
  payloads_present (DockerService.unapplied_changes service) →
  ∃ m, renders service m.
Proof.
  intros [m Hm]%(merge_total (default [] (DockerService.env_variables service))).
  exists m. by apply renders_env_variables.
Qed.

End page_facts.

(** ** The client actions *)

Section action_facts.
Import Actions.
Context {Data : Type}.
Context (getCsrfTokenHeader : list (string * string)).
Context (apiClient : Request → ApiResponse.t Data).

Abbreviation createEnvVariable := (createEnvVariable getCsrfTokenHeader apiClient).
Abbreviation updateEnvVariable := (updateEnvVariable getCsrfTokenHeader apiClient).
Abbreviation deleteEnvVariable := (deleteEnvVariable getCsrfTokenHeader apiClient).
Abbreviation cancelEnvVariable := (cancelEnvVariable getCsrfTokenHeader apiClient).
Abbreviation clientAction := (clientAction getCsrfTokenHeader apiClient).

Implicit Types (project_slug service_slug : string) (formData : FormData.t)
  (c : Client.t) (r : Request).

(** Every action sends one request, the one built from the form. *)
Lemma createEnvVariable_sent project_slug service_slug formData c :
  Client.sent (createEnvVariable project_slug service_slug formData c).2
  = Client.sent c
    ++ [createEnvVariable_request getCsrfTokenHeader project_slug service_slug formData].
Proof.
  unfold Actions.createEnvVariable, mbind, Action_bind, fetch. simpl.
  destruct (ApiResponse.error _); [done|]. by destruct (ApiResponse.data _).
Qed.

Lemma updateEnvVariable_sent project_slug service_slug formData c :
  Client.sent (updateEnvVariable project_slug service_slug formData c).2
  = Client.sent c
    ++ [updateEnvVariable_request getCsrfTokenHeader project_slug service_slug formData].
Proof.
  unfold Actions.updateEnvVariable, mbind, Action_bind, fetch. simpl.
  destruct (ApiResponse.error _); [done|]. by destruct (ApiResponse.data _).
Qed.

Lemma deleteEnvVariable_sent project_slug service_slug formData c :
  Client.sent (deleteEnvVariable project_slug service_slug formData c).2
  = Client.sent c
    ++ [deleteEnvVariable_request getCsrfTokenHeader project_slug service_slug formData].
Proof.
  unfold Actions.deleteEnvVariable, mbind, Action_bind, fetch. simpl.
  by destruct (ApiResponse.error _).
Qed.

Lemma cancelEnvVariable_sent project_slug service_slug formData c :
  Client.sent (cancelEnvVariable project_slug service_slug formData c).2
  = Client.sent c
    ++ [cancelEnvVariable_request getCsrfTokenHeader project_slug service_slug formData].
Proof.
  unfold Actions.cancelEnvVariable, mbind, Action_bind, fetch. simpl.
  by destruct (ApiResponse.error _).
Qed.

Lemma fmap_returned_sent (action : Action ActionResult) c :
  Client.sent ((returned (Data := Data) <$> action) c).2 = Client.sent (action c).2.
Proof. unfold fmap, Action_fmap. by destruct (action c). Qed.

(** C6: the change request of each action has the shape of its type.
    The ADD of [createEnvVariable] names the field and carries the
    [new_value] read from the form and no [item_id]; the UPDATE of
    [updateEnvVariable] carries an [item_id] and the [new_value]; the
    DELETE of [deleteEnvVariable] carries an [item_id] and no
    [new_value]. [clientAction] sends nothing but these requests and
    the cancel request. *)
Theorem change_request_shapes project_slug service_slug formData c :
  (∃ body,
     Client.sent (createEnvVariable project_slug service_slug formData c).2
     = Client.sent c
       ++ [PUT_request_service_changes getCsrfTokenHeader project_slug service_slug body] ∧
     ChangeRequest.type body = ADD ∧
     ChangeRequest.field body = "env_variables" ∧
     ChangeRequest.new_value body = Some (userData_of formData) ∧
     ChangeRequest.item_id body = None) ∧
  (∃ body item_id,
     Client.sent (updateEnvVariable project_slug service_slug formData c).2
     = Client.sent c
       ++ [PUT_request_service_changes getCsrfTokenHeader project_slug service_slug body] ∧
     ChangeRequest.type body = UPDATE ∧
     ChangeRequest.field body = "env_variables" ∧
     ChangeRequest.item_id body = Some item_id ∧
     ChangeRequest.new_value body = Some (userData_of formData)) ∧
  (∃ body item_id,
     Client.sent (deleteEnvVariable project_slug service_slug formData c).2
     = Client.sent c
       ++ [PUT_request_service_changes getCsrfTokenHeader project_slug service_slug body] ∧
     ChangeRequest.type body = DELETE ∧
     ChangeRequest.field body = "env_variables" ∧
     ChangeRequest.item_id body = Some item_id ∧
     ChangeRequest.new_value body = None) ∧
  (∀ r,
     r ∈ Client.sent (clientAction project_slug service_slug formData c).2 →
     r ∈ Client.sent c ∨
     r ∈ [createEnvVariable_request getCsrfTokenHeader project_slug service_slug formData;
          updateEnvVariable_request getCsrfTokenHeader project_slug service_slug formData;
          deleteEnvVariable_request getCsrfTokenHeader project_slug service_slug formData;
          cancelEnvVariable_request getCsrfTokenHeader project_slug service_slug formData]).
Proof.
  split_and!.
  - eexists. rewrite createEnvVariable_sent. by split_and!.
  - eexists _, _. rewrite updateEnvVariable_sent. by split_and!.
  - eexists _, _. rewrite deleteEnvVariable_sent. by split_and!.
  - intros r. unfold Actions.clientAction.
    repeat case_match; try (simpl; by left); rewrite fmap_returned_sent;
      rewrite ?createEnvVariable_sent, ?updateEnvVariable_sent,
        ?deleteEnvVariable_sent, ?cancelEnvVariable_sent;
      (intros [?| ->%list_elem_of_singleton]%elem_of_app; [by left|right]);
      rewrite !elem_of_cons; auto.
Qed.

(** C7: when the request of an action is answered with an error, no
    service query is invalidated, so the cached service stays as it
    was. [createEnvVariable] and [updateEnvVariable] return the errors
    with the input of the user and leave the client, the request they
    sent apart, untouched; [deleteEnvVariable] and [cancelEnvVariable]
    return nothing and only replace their loading toast by the error. *)
Theorem error_keeps_cached_service project_slug service_slug formData c errors :
  (ApiResponse.error
     (apiClient (createEnvVariable_request getCsrfTokenHeader
                   project_slug service_slug formData)) = Some errors →
   createEnvVariable project_slug service_slug formData c
   = (errors_userData errors (userData_of formData),
      {| Client.sent :=
           Client.sent c
           ++ [createEnvVariable_request getCsrfTokenHeader
                 project_slug service_slug formData];
         Client.invalidated := Client.invalidated c;
         Client.toasts := Client.toasts c |})) ∧
  (ApiResponse.error
     (apiClient (updateEnvVariable_request getCsrfTokenHeader
                   project_slug service_slug formData)) = Some errors →
   updateEnvVariable project_slug service_slug formData c
   = (errors_userData errors (userData_of formData),
      {| Client.sent :=
           Client.sent c
           ++ [updateEnvVariable_request getCsrfTokenHeader
                 project_slug service_slug formData];
         Client.invalidated := Client.invalidated c;
         Client.toasts := Client.toasts c |})) ∧
  (ApiResponse.error
     (apiClient (deleteEnvVariable_request getCsrfTokenHeader
                   project_slug service_slug formData)) = Some errors →
   (deleteEnvVariable project_slug service_slug formData c).1 = undefined ∧
   Client.invalidated (deleteEnvVariable project_slug service_slug formData c).2
   = Client.invalidated c ∧
   Client.toasts (deleteEnvVariable project_slug service_slug formData c).2
   = Client.toasts c
     ++ [toast_loading_call (length (Client.toasts c)) "Sending change request...";
         toast_error_call (length (Client.toasts c)) "Error" (fullErrorMessage errors)]) ∧
  (ApiResponse.error
     (apiClient (cancelEnvVariable_request getCsrfTokenHeader
                   project_slug service_slug formData)) = Some errors →
   (cancelEnvVariable project_slug service_slug formData c).1 = undefined ∧
   Client.invalidated (cancelEnvVariable project_slug service_slug formData c).2
   = Client.invalidated c ∧
   Client.toasts (cancelEnvVariable project_slug service_slug formData c).2
   = Client.toasts c
     ++ [toast_loading_call (length (Client.toasts c)) "Cancelling env variable change...";
         toast_error_call (length (Client.toasts c)) "Error" (fullErrorMessage errors)]).
Proof.
  split_and!; intros Herr.
  - unfold Actions.createEnvVariable, mbind, Action_bind, fetch. simpl. by rewrite Herr.
  - unfold Actions.updateEnvVariable, mbind, Action_bind, fetch. simpl. by rewrite Herr.
  - unfold Actions.deleteEnvVariable, mbind, Action_bind, fetch, toast_loading. simpl.
    rewrite Herr. simpl. by rewrite <- app_assoc.
  - unfold Actions.cancelEnvVariable, mbind, Action_bind, fetch, toast_loading. simpl.
    rewrite Herr. simpl. by rewrite <- app_assoc.
Qed.

(** The refetch does happen when the request succeeds. *)
Lemma success_invalidates project_slug service_slug formData c :
  (∀ data,
     apiClient (createEnvVariable_request getCsrfTokenHeader
                  project_slug service_slug formData)
     = {| ApiResponse.error := None; ApiResponse.data := Some data |} →
     (createEnvVariable project_slug service_slug formData c).1 = data_result data ∧
     Client.invalidated (createEnvVariable project_slug service_slug formData c).2
     = Client.invalidated c ++ [(project_slug, service_slug)]) ∧
  (∀ data,
     apiClient (updateEnvVariable_request getCsrfTokenHeader
                  project_slug service_slug formData)
     = {| ApiResponse.error := None; ApiResponse.data := Some data |} →
     (updateEnvVariable project_slug service_slug formData c).1 = data_result data ∧
     Client.invalidated (updateEnvVariable project_slug service_slug formData c).2
     = Client.invalidated c ++ [(project_slug, service_slug)]) ∧
  (ApiResponse.error
     (apiClient (deleteEnvVariable_request getCsrfTokenHeader
                   project_slug service_slug formData)) = None →
   Client.invalidated (deleteEnvVariable project_slug service_slug formData c).2
   = Client.invalidated c ++ [(project_slug, service_slug)]) ∧
  (ApiResponse.error
     (apiClient (cancelEnvVariable_request getCsrfTokenHeader
                   project_slug service_slug formData)) = None →
   Client.invalidated (cancelEnvVariable project_slug service_slug formData c).2
   = Client.invalidated c ++ [(project_slug, service_slug)]).
Proof.
  split_and!.
  - intros data Hok.
    unfold Actions.createEnvVariable, mbind, Action_bind, fetch. simpl. by rewrite Hok.
  - intros data Hok.
    unfold Actions.updateEnvVariable, mbind, Action_bind, fetch. simpl. by rewrite Hok.
  - intros Hok.
    unfold Actions.deleteEnvVariable, mbind, Action_bind, fetch. simpl. by rewrite Hok.
  - intros Hok.
    unfold Actions.cancelEnvVariable, mbind, Action_bind, fetch. simpl. by rewrite Hok.
Qed.

End action_facts.

Lemma error_keeps_cached_service_witness :
  Actions.createEnvVariable [] Samples.rejecting_server "shop" "web"
    Samples.form_B Samples.fresh_client
  = (Actions.errors_userData Samples.required
       {| KeyValue.key := ""; KeyValue.value := "x" |},
     {| Client.sent :=
          [Actions.createEnvVariable_request [] "shop" "web" Samples.form_B];
        Client.invalidated := [];
        Client.toasts := [] |}) ∧
  Client.invalidated
    (Actions.cancelEnvVariable [] Samples.rejecting_server "shop" "web"
       Samples.form_B Samples.fresh_client).2 = [].
Proof.
  destruct (error_keeps_cached_service [] Samples.rejecting_server "shop" "web"
              Samples.form_B Samples.fresh_client Samples.required)
    as (Hcreate & _ & _ & Hcancel).
  split.
  - apply Hcreate. reflexivity.
  - apply Hcancel. reflexivity.
Defined.

(** ** The service layout *)

Section layout_facts.
Import ServiceDetailsLayout.
Context (pluralize : string → nat → string).
Implicit Types (service : Service) (fetcher_state : FetcherState).

Lemma prefix_colon (a : ascii) (s : string) :
  String.prefix ":" (String a s) = bool_decide (":"%char = a).
Proof.
  change (String.prefix ":" (String a s))
    with (if Ascii.ascii_dec ":" a then String.prefix "" s else false).
  destruct (Ascii.ascii_dec ":" a) as [Heq|Hne].
  - rewrite bool_decide_true by done. by destruct s.
  - by rewrite bool_decide_false.
Qed.

(** [includes(":")] looks for the character. *)
Lemma includes_colon (s : string) :
  includes ":" s = true ↔ ":"%char ∈ String.list_ascii_of_string s.
Proof.
  induction s as [|a s IH]; [split; [done | by intros ?%elem_of_nil]|].
  change (includes ":" (String a s))
    with (String.prefix ":" (String a s) || includes ":" s).
  change (String.list_ascii_of_string (String a s))
    with (a :: String.list_ascii_of_string s).
  rewrite prefix_colon, elem_of_cons, <- IH. case_bool_decide; simpl.
  - split; auto.
  - split; [auto|]. intros [?|?]; [congruence|done].
Qed.

(** C8: the deploy form is there for every service and every state of
    the fetcher, always the same post to [./deploy-service], pending
    exactly while a submission is under way; the warning is there
    exactly when the queue of unapplied changes is not empty, and it
    shows the length of the queue. *)
Theorem deploy_form_always_rendered service fetcher_state :
  (∀ method action submit,
     fetcher_Form method action submit ∈ DeployServiceForm pluralize service fetcher_state
     ↔ method = "post" ∧ action = "./deploy-service" ∧
       submit = {| SubmitButton.isPending := bool_decide (fetcher_state ≠ idle);
                   SubmitButton.variant := "secondary";
                   SubmitButton.children :=
                     if bool_decide (fetcher_state ≠ idle)
                     then "Deploying" else "Deploy now" |}) ∧
  (∀ count text,
     Button_warning count text ∈ DeployServiceForm pluralize service fetcher_state
     ↔ DockerService.unapplied_changes service ≠ [] ∧
       count = length (DockerService.unapplied_changes service) ∧
       text = pluralize "unapplied change" count).
Proof.
  unfold DeployServiceForm.
  destruct (DockerService.unapplied_changes service) as [|ch chs]; simpl; split.
  - intros method action submit. rewrite list_elem_of_singleton.
    split; [by intros [= -> -> ->] | by intros (-> & -> & ->)].
  - intros count text. rewrite list_elem_of_singleton. split; [done | by intros [? _]].
  - intros method action submit. rewrite !elem_of_cons, elem_of_nil.
    split; [by intros [[=]|[[= -> -> ->]|[]]] | intros (-> & -> & ->); auto].
  - intros count text. rewrite !elem_of_cons, elem_of_nil.
    split; [by intros [[= -> ->]|[[=]|[]]] | intros (_ & -> & ->); auto].
Qed.

(** C9, as the layout has it: the image is [service.image] when there
    is one, and otherwise the image of the [new_value] of the first
    unapplied change of the field [source]; the header shows it with
    [:latest] appended when it is not empty and has no [:] in it, and
    as it is otherwise, the empty image included. *)
Theorem service_image_shown service :
  resolved_image service
  = match DockerService.image service with
    | Some image => Some image
    | None =>
        match filter (λ change, Change.field change = "source")
                     (DockerService.unapplied_changes service) with
        | change :: _ =>
            match Change.new_value change with
            | Some new_value => SourceValue.image new_value
            | None => None
            end
        | [] => None
        end
    end ∧
  serviceImage service
  = (λ image,
       if decide (image ≠ "" ∧ ":"%char ∉ String.list_ascii_of_string image)
       then image +:+ ":latest" else image) <$> resolved_image service.
Proof.
  split.
  - unfold resolved_image. destruct (DockerService.image service); [done|].
    destruct (filter _ _) as [|change ?]; [done|]. simpl.
    by destruct (Change.new_value change).
  - unfold serviceImage. destruct (resolved_image service) as [image|]; [|done]. simpl.
    unfold truthy. pose proof (includes_colon image) as Hcolon.
    destruct (includes ":" image); simpl.
    + rewrite andb_false_r, decide_False; [done|]. intros [_ Hnot]. by apply Hnot, Hcolon.
    + rewrite andb_true_r. destruct (decide (image = "")) as [->|Hne].
      * rewrite bool_decide_false by (intros H; by apply H).
        by rewrite decide_False by (intros [H _]; by apply H).
      * rewrite bool_decide_true, decide_True; [done| |done].
        split; [done|]. intros Hin%Hcolon. done.
Qed.

(** C9, as stated, fails for a service whose image is the empty
    string: the image is resolved, it contains no [:], and the header
    shows it without [:latest]. *)
Lemma empty_image_not_suffixed :
  resolved_image
    {| DockerService.slug := "web"; DockerService.image := Some "";
       DockerService.env_variables := None;
       DockerService.unapplied_changes := [] |} = Some "" ∧
  includes ":" "" = false ∧
  serviceImage
    {| DockerService.slug := "web"; DockerService.image := Some "";
       DockerService.env_variables := None;
       DockerService.unapplied_changes := [] |} = Some "" ∧
  serviceImage
    {| DockerService.slug := "web"; DockerService.image := Some "";
       DockerService.env_variables := None;
       DockerService.unapplied_changes := [] |} ≠ Some ("" +:+ ":latest").
Proof. split_and!; [reflexivity..|discriminate]. Qed.

End layout_facts.

(** * More of the pages *)

(** ** The merged map, entry by entry *)

Section lookup_facts.
Import ServiceEnvVariablesPage.
Implicit Types (m v : list (string * EnvVariableUI.t)) (ch c : Change)
  (chs : list Change) (k i : string) (service : Service).

Lemma committed_get (committed : list EnvVariable.t) m k :
  JsMap.get k (foldl set_committed m committed)
  = match last (filter (λ env, EnvVariable.id env = k) committed) with
    | Some env => Some (committed_entry env)
    | None => JsMap.get k m
    end.
Proof.
  induction committed as [|env committed IH] using rev_ind; [done|].
  rewrite foldl_app, filter_app, filter_cons, filter_nil. simpl.
  unfold set_committed at 1. destruct (decide (EnvVariable.id env = k)) as [<-|Hne].
  - by rewrite last_snoc, get_set_eq.
  - by rewrite app_nil_r, get_set_ne.
Qed.

Lemma changes_get m chs v k :
  for_of set_change m chs = Some v →
  JsMap.get k v
  = match last (filter (λ c, change_key c = k) chs) with
    | Some ch => change_entry ch
    | None => JsMap.get k m
    end.
Proof.
  revert v. induction chs as [|c chs IH] using rev_ind; intros v.
  - by intros [= <-].
  - rewrite for_of_app. destruct (for_of set_change m chs) as [m'|]; simpl; [|done].
    destruct (set_change m' c) as [m''|] eqn:Hc; simpl; [|done]. intros [= <-].
    apply set_change_Some in Hc as (e & He & ->).
    rewrite filter_app, filter_cons, filter_nil.
    destruct (decide (change_key c = k)) as [<-|Hne].
    + by rewrite last_snoc, get_set_eq.
    + rewrite app_nil_r, get_set_ne by done. by apply IH.
Qed.

(** X1: the entry under a key is the row of the last change to
    [env_variables] with that key; when no change has the key, it is
    the row of the last committed variable with that id; and there is
    none when there is neither. *)
Theorem merged_lookup service m k :
  env_variables service = Some m →
  JsMap.get k m
  = match last (filter (λ c, change_key c = k)
                       (env_changes (DockerService.unapplied_changes service))) with
    | Some ch => change_entry ch
    | None =>
        committed_entry
          <$> last (filter (λ env, EnvVariable.id env = k)
                           (default [] (DockerService.env_variables service)))
    end.
Proof.
  intros Hm. rewrite (changes_get _ _ _ k Hm).
  destruct (last _); [done|]. rewrite committed_get. by destruct (last _).
Qed.

Lemma merged_lookup_witness :
  JsMap.get "e1"
    [("e1", {| EnvVariableUI.change_id := Some "c4";
               EnvVariableUI.id := Some "e1";
               EnvVariableUI.name := "A";
               EnvVariableUI.value := "3";
               EnvVariableUI.change_type := Some UPDATE |})]
  = match last (filter (λ c, change_key c = "e1")
                       (env_changes [Samples.update_e1; Samples.update_e1_again])) with
    | Some ch => change_entry ch
    | None =>
        committed_entry
          <$> last (filter (λ env, EnvVariable.id env = "e1") (default [] (Some [Samples.e1])))
    end.
Proof.
  apply (merged_lookup
           (Samples.service_with "web" [Samples.update_e1; Samples.update_e1_again])).
  reflexivity.
Defined.

(** X2: building the map throws exactly when the queue holds a change
    to [env_variables] that has neither a [new_value] nor an
    [old_value]. *)
Theorem render_throws_iff service :
  env_variables service = None
  ↔ ∃ ch, ch ∈ DockerService.unapplied_changes service ∧
      Change.field ch = "env_variables" ∧
      Change.new_value ch = None ∧ Change.old_value ch = None.
Proof.
  pose proof (merge_total (default [] (DockerService.env_variables service))
                (DockerService.unapplied_changes service)) as Htotal.
  unfold payloads_present in Htotal. fold (env_variables service) in Htotal.
  split.
  - intros Hnone.
    assert (Hnot : ¬ Forall (λ c, is_Some (keyValue c))
                     (env_changes (DockerService.unapplied_changes service))).
    { intros Hall%Htotal. rewrite Hnone in Hall. by destruct Hall. }
    apply not_Forall_Exists in Hnot; [|apply _].
    apply Exists_exists in Hnot as (ch & [Hfield Hin]%list_elem_of_filter & Hkv).
    simpl in Hkv. exists ch. split_and!; [done..| |].
    + unfold keyValue in Hkv. destruct (Change.new_value ch); [|done].
      destruct Hkv. by eexists.
    + unfold keyValue in Hkv.
      destruct (Change.new_value ch); [destruct Hkv; by eexists|].
      destruct (Change.old_value ch); [destruct Hkv; by eexists|done].
  - intros (ch & Hin & Hfield & Hnew & Hold).
    destruct (env_variables service) as [m|] eqn:Hm; [|done].
    assert (Hall : Forall (λ c, is_Some (keyValue c))
                     (env_changes (DockerService.unapplied_changes service)))
      by (apply Htotal; eauto).
    rewrite Forall_forall in Hall.
    destruct (Hall ch) as [kv Hkv]; [by apply list_elem_of_filter|].
    unfold keyValue in Hkv. rewrite Hnew, Hold in Hkv. done.
Qed.

(** X3: a change to another field, wherever it stands in the queue
    and whatever it carries, does not change what the page builds. *)
Theorem other_field_ignored committed q1 c q2 :
  Change.field c ≠ "env_variables" →
  merge committed (q1 ++ c :: q2) = merge committed (q1 ++ q2).
Proof.
  intros Hfield. unfold merge. rewrite !env_changes_app. unfold env_changes at 2.
  by rewrite filter_cons_False.
Qed.

Lemma other_field_ignored_witness :
  merge [Samples.e1] ([Samples.update_e1] ++ Samples.change_source :: [Samples.add_B])
  = merge [Samples.e1] ([Samples.update_e1] ++ [Samples.add_B]).
Proof. apply other_field_ignored. discriminate. Defined.

End lookup_facts.

(** ** The order of the merged map, change by change *)

Section order_facts.
Import ServiceEnvVariablesPage.
Implicit Types (m : list (string * EnvVariableUI.t)) (ch c : Change)
  (chs : list Change) (k i : string) (service : Service).









End order_facts.

(** ** Counting and discarding *)

Section count_facts.
Import ServiceEnvVariablesPage.
Implicit Types (m v : list (string * EnvVariableUI.t)) (ch c : Change)
  (chs : list Change) (k i : string) (service : Service).

Lemma first_occurrences_length (ks : list string) :
  (length (first_occurrences ks) ≤ length ks)%nat.
Proof.
  induction ks as [|k ks IH]; simpl; [done|].
  pose proof (length_filter (λ k', k' ≠ k) (first_occurrences ks)). lia.
Qed.

Lemma first_occurrences_nil (ks : list string) :
  first_occurrences ks = [] → ks = [].
Proof. by destruct ks. Qed.

(** X4: discarding the only pending change of a committed variable
    gives that variable its committed row back; the other entries and
    the order of the map stay as they were. *)
Theorem discard_restores_committed committed q1 ch q2 m env :
  merge committed (q1 ++ ch :: q2) = Some m →
  env ∈ committed →
  NoDup (EnvVariable.id <$> committed) →
  change_key ch = EnvVariable.id env →
  (∀ c, c ∈ q1 ++ q2 → Change.field c = "env_variables" →
        change_key c ≠ EnvVariable.id env) →
  ∃ m', merge committed (q1 ++ q2) = Some m' ∧
    JsMap.keys m' = JsMap.keys m ∧
    JsMap.get (EnvVariable.id env) m' = Some (committed_entry env) ∧
    ∀ k, k ≠ EnvVariable.id env → JsMap.get k m' = JsMap.get k m.
Proof.
  intros Hm Henv Hnd Hkey Hothers.
  assert (Hsome : is_Some (merge committed (q1 ++ q2))).
  { apply merge_total. unfold payloads_present.
    assert (Hall : payloads_present (q1 ++ ch :: q2))
      by (apply (proj2 (merge_total committed (q1 ++ ch :: q2))); eauto).
    unfold payloads_present in Hall. rewrite env_changes_app in *.
    apply Forall_app in Hall as [H1 H2]. apply Forall_app. split; [done|].
    unfold env_changes in *. rewrite filter_cons in H2.
    destruct (decide _); [by apply Forall_cons in H2 as [_ ?] | done]. }
  destruct Hsome as [m' Hm']. exists m'. split; [done|].
  assert (Hin : EnvVariable.id env ∈ EnvVariable.id <$> committed)
    by (by apply list_elem_of_fmap_2).
  split_and!.
  - rewrite (merged_keys _ _ _ Hm), (merged_keys _ _ _ Hm'). f_equal. f_equal.
    rewrite !env_changes_app, !fmap_app, !filter_app. f_equal.
    unfold env_changes. rewrite filter_cons. destruct (decide _); [|done].
    rewrite fmap_cons, filter_cons_False; [done|]. rewrite Hkey. by intros [].
  - unfold merge in Hm'. rewrite (changes_get _ _ _ (EnvVariable.id env) Hm').
    destruct (last _) as [c|] eqn:Hlast.
    + apply last_filter_split in Hlast as (l1 & l2 & Hsplit & Hc & _).
      assert (Hcin : c ∈ env_changes (q1 ++ q2))
        by (rewrite Hsplit; apply elem_of_app; right; apply elem_of_cons; by left).
      apply list_elem_of_filter in Hcin as [Hfield Hcin]. by destruct (Hothers c).
    + clear Hlast. rewrite committed_get.
      destruct (last _) as [env'|] eqn:Hlast.
      * apply last_filter_split in Hlast as (l1 & l2 & Hsplit & Hid & _).
        do 2 f_equal. rewrite Hsplit in Hnd, Henv.
        apply elem_of_app in Henv as [Henv|[->|Henv]%elem_of_cons]; [|done|].
        -- rewrite fmap_app, fmap_cons in Hnd. apply NoDup_app in Hnd as (_ & Hdisj & _).
           destruct (Hdisj (EnvVariable.id env)); [by apply list_elem_of_fmap_2|].
           rewrite Hid. apply elem_of_cons. by left.
        -- rewrite fmap_app, fmap_cons in Hnd. apply NoDup_app in Hnd as (_ & _ & Hnd).
           apply NoDup_cons in Hnd as [Hnotin _]. destruct Hnotin.
           rewrite Hid. by apply list_elem_of_fmap_2.
      * exfalso. assert (Hfil : env ∈ filter (λ e, EnvVariable.id e = EnvVariable.id env) committed)
          by (by apply list_elem_of_filter).
        destruct (filter _ committed) as [|x l] using rev_ind;
          [by apply elem_of_nil in Hfil | by rewrite last_snoc in Hlast].
  - intros k Hk. unfold merge in Hm, Hm'.
    rewrite (changes_get _ _ _ k Hm), (changes_get _ _ _ k Hm').
    rewrite !env_changes_app, !filter_app.
    destruct (decide (Change.field ch = "env_variables")) as [Hf|Hf].
    + rewrite (env_changes_cons_env ch) by done.
      rewrite (filter_cons_False _ ch); [done|]. rewrite Hkey. congruence.
    + unfold env_changes. by rewrite (filter_cons_False _ ch).
Qed.

Lemma discard_restores_committed_witness :
  ∃ m', merge [Samples.e1] ([] ++ [Samples.add_B]) = Some m' ∧
    JsMap.keys m'
    = JsMap.keys
        [("e1", {| EnvVariableUI.change_id := Some "c1";
                   EnvVariableUI.id := Some "e1";
                   EnvVariableUI.name := "A";
                   EnvVariableUI.value := "2";
                   EnvVariableUI.change_type := Some UPDATE |});
         ("c2", {| EnvVariableUI.change_id := Some "c2";
                   EnvVariableUI.id := None;
                   EnvVariableUI.name := "B";
                   EnvVariableUI.value := "x";
                   EnvVariableUI.change_type := Some ADD |})] ∧
    JsMap.get (EnvVariable.id Samples.e1) m' = Some (committed_entry Samples.e1) ∧
    ∀ k, k ≠ EnvVariable.id Samples.e1 →
      JsMap.get k m'
      = JsMap.get k
          [("e1", {| EnvVariableUI.change_id := Some "c1";
                     EnvVariableUI.id := Some "e1";
                     EnvVariableUI.name := "A";
                     EnvVariableUI.value := "2";
                     EnvVariableUI.change_type := Some UPDATE |});
           ("c2", {| EnvVariableUI.change_id := Some "c2";
                     EnvVariableUI.id := None;
                     EnvVariableUI.name := "B";
                     EnvVariableUI.value := "x";
                     EnvVariableUI.change_type := Some ADD |})].
Proof.
  apply (discard_restores_committed [Samples.e1] [] Samples.update_e1 [Samples.add_B]).
  - reflexivity.
  - apply elem_of_cons. by left.
  - simpl. apply NoDup_singleton.
  - reflexivity.
  - intros c ->%list_elem_of_singleton _. discriminate.
Defined.

(** X5: with committed variables of distinct ids, the map has at
    least one entry for each of them and at most one more for each
    change to [env_variables]: no pending change, a DELETE included,
    brings the count of the header below the number of committed
    variables. *)
Theorem size_bounds service m :
  env_variables service = Some m →
  NoDup (EnvVariable.id <$> default [] (DockerService.env_variables service)) →
  (length (default [] (DockerService.env_variables service)) ≤ JsMap.size m)%nat ∧
  (JsMap.size m
   ≤ length (default [] (DockerService.env_variables service))
     + length (env_changes (DockerService.unapplied_changes service)))%nat.
Proof.
  intros Hm Hnd. unfold JsMap.size.
  assert (Hlen : length m = length (JsMap.keys m))
    by (unfold JsMap.keys; by rewrite length_fmap).
  rewrite Hlen, (merged_keys _ _ _ Hm), (first_occurrences_NoDup _ Hnd).
  rewrite length_app, length_fmap.
  match goal with |- context [first_occurrences ?l] =>
    pose proof (first_occurrences_length l) as H1;
    assert (H2 : (length l
                  ≤ length (env_changes (DockerService.unapplied_changes service)))%nat)
  end.
  { etrans; [apply length_filter|]. by rewrite length_fmap. }
  lia.
Qed.

Lemma size_bounds_witness :
  (length (default [] (Some [Samples.e1]))
   ≤ JsMap.size
       [("e1", {| EnvVariableUI.change_id := Some "c1";
                  EnvVariableUI.id := Some "e1";
                  EnvVariableUI.name := "A";
                  EnvVariableUI.value := "1";
                  EnvVariableUI.change_type := Some DELETE |})])%nat ∧
  (JsMap.size
       [("e1", {| EnvVariableUI.change_id := Some "c1";
                  EnvVariableUI.id := Some "e1";
                  EnvVariableUI.name := "A";
                  EnvVariableUI.value := "1";
                  EnvVariableUI.change_type := Some DELETE |})]
   ≤ length (default [] (Some [Samples.e1]))
     + length (env_changes [Samples.change_source; Samples.delete_e1]))%nat.
Proof.
  apply (size_bounds
           (Samples.service_with "web" [Samples.change_source; Samples.delete_e1])).
  - reflexivity.
  - simpl. apply NoDup_singleton.
Defined.

(** X6: no two entries of the map have the same key, and no two rows
    name the same item. *)
Theorem rows_name_distinct_items service m :
  env_variables service = Some m →
  NoDup (JsMap.keys m) ∧
  ∀ i, (length (filter (λ e, EnvVariableUI.id e = Some i) (rows m)) ≤ 1)%nat.
Proof.
  intros Hm. pose proof (merge_NoDup _ _ _ Hm) as Hnd. split; [done|]. intros i.
  unfold rows, JsMap.entries. rewrite filter_fmap, length_fmap.
  assert (Hkeyed : ∀ p, p ∈ m → EnvVariableUI.id p.2 = Some i → p.1 = i).
  { intros [k e] Hin Hid. by apply (merge_keyed _ _ _ _ _ _ Hm Hin). }
  clear Hm. unfold JsMap.keys in Hnd.
  induction m as [|p m IH]; [simpl; lia|].
  rewrite fmap_cons in Hnd. apply NoDup_cons in Hnd as [Hp Hnd].
  assert (Htail : ∀ q, q ∈ m → EnvVariableUI.id q.2 = Some i → q.1 = i).
  { intros q Hq. apply Hkeyed, elem_of_cons. by right. }
  rewrite filter_cons. destruct (decide _) as [Hid|]; [|by apply IH].
  assert (Hnil : filter (λ x, EnvVariableUI.id x.2 = Some i) m = []).
  { destruct (filter _ m) as [|q l] eqn:Hf; [done|]. exfalso.
    assert (Hq : q ∈ filter (λ x, EnvVariableUI.id x.2 = Some i) m)
      by (rewrite Hf; apply elem_of_cons; by left).
    apply list_elem_of_filter in Hq as [Hqid Hq]. apply Hp.
    assert (Hpi : p.1 = i) by (apply Hkeyed; [apply elem_of_cons; by left | done]).
    rewrite Hpi.
    rewrite <- (Htail q Hq Hqid). by apply list_elem_of_fmap_2. }
  rewrite Hnil. simpl. lia.
Qed.

Lemma rows_name_distinct_items_witness :
  NoDup (JsMap.keys
           [("e1", {| EnvVariableUI.change_id := Some "c4";
                      EnvVariableUI.id := Some "e1";
                      EnvVariableUI.name := "A";
                      EnvVariableUI.value := "3";
                      EnvVariableUI.change_type := Some UPDATE |})]) ∧
  ∀ i, (length (filter (λ e, EnvVariableUI.id e = Some i)
                 (rows [("e1", {| EnvVariableUI.change_id := Some "c4";
                                  EnvVariableUI.id := Some "e1";
                                  EnvVariableUI.name := "A";
                                  EnvVariableUI.value := "3";
                                  EnvVariableUI.change_type := Some UPDATE |})])) ≤ 1)%nat.
Proof.
  apply (rows_name_distinct_items
           (Samples.service_with "web" [Samples.update_e1; Samples.update_e1_again])).
  reflexivity.
Defined.

End count_facts.

(** ** The rows and what they offer *)

Section row_facts.
Import ServiceEnvVariablesPage.
Implicit Types (pluralize : string → nat → string) (m : list (string * EnvVariableUI.t)) (service : Service)
  (props : EnVariableRow.Props) (fetchers : EnVariableRow.Fetchers)
  (st : EnVariableRow.State).

(** X7: the header counts the rows that are listed, and it reads
    "No user defined variables" exactly when the service has no
    committed variable and the queue no change to [env_variables]. *)
Theorem header_counts_rows pluralize service system v :
  ServiceEnvVariablesPageView.page pluralize service system = Some v →
  (ServiceEnvVariablesPageView.header v = ServiceEnvVariablesPageView.No_user_defined_variables
   ↔ default [] (DockerService.env_variables service) = [] ∧
     env_changes (DockerService.unapplied_changes service) = []) ∧
  (∀ size noun,
     ServiceEnvVariablesPageView.header v
     = ServiceEnvVariablesPageView.User_defined_service_variables size noun →
     size = length (ServiceEnvVariablesPageView.user_rows v) ∧ 0 < size).
Proof.
  unfold ServiceEnvVariablesPageView.page.
  destruct (env_variables service) as [m|] eqn:Hm; simpl; [|done]. intros [= <-]. simpl.
  pose proof (merged_keys _ _ _ Hm) as Hkeys. unfold JsMap.size, rows, JsMap.entries.
  split.
  - destruct m as [|p m]; simpl.
    + split; [intros _|done]. unfold JsMap.keys in Hkeys. simpl in Hkeys.
      symmetry in Hkeys. apply app_eq_nil in Hkeys as [H1 H2].
      apply first_occurrences_nil, fmap_nil_inv in H1. rewrite H1 in *. split; [done|].
      apply first_occurrences_nil in H2. simpl in H2.
      rewrite (list_filter_iff _ (λ _, True)) in H2
        by (intros k; split; [done|intros _; apply not_elem_of_nil]).
      destruct (env_changes _) as [|c chs]; [done|].
      rewrite fmap_cons, filter_cons_True in H2 by done. done.
    + split; [done|]. intros [Hc Hq]. unfold env_variables, merge in Hm.
      rewrite Hc, Hq in Hm. done.
  - intros size noun. destruct m as [|p m]; simpl; [by intros [=]|].
    intros [= <- _]. rewrite !length_fmap. simpl. split; [done|lia].
Qed.

Lemma header_counts_rows_witness :
  (ServiceEnvVariablesPageView.header
     (ServiceEnvVariablesPageView.view (λ noun _, noun)
        [("e1", committed_entry Samples.e1)] None)
   = ServiceEnvVariablesPageView.No_user_defined_variables
   ↔ default [] (Some [Samples.e1]) = [] ∧ env_changes [Samples.change_source] = []) ∧
  (∀ size noun,
     ServiceEnvVariablesPageView.header
       (ServiceEnvVariablesPageView.view (λ noun _, noun)
          [("e1", committed_entry Samples.e1)] None)
     = ServiceEnvVariablesPageView.User_defined_service_variables size noun →
     size = length (ServiceEnvVariablesPageView.user_rows
                      (ServiceEnvVariablesPageView.view (λ noun _, noun)
                         [("e1", committed_entry Samples.e1)] None)) ∧ 0 < size).
Proof.
  apply (header_counts_rows (λ noun _, noun)
           (Samples.service_with "web" [Samples.change_source]) None).
  reflexivity.
Defined.

(** X8: as long as the value is not revealed and the row is not
    being edited, nothing of what the row renders depends on the
    value of the variable: two variables that differ in their value
    only give the same row, mask, forms and menu. *)
Theorem hidden_value_not_rendered change_id id name change_type value1 value2
    isLocked comment fetchers st :
  EnVariableRow.isEnvValueShown st = false →
  EnVariableRow.isEditing st = false →
  EnVariableRow.render
    {| EnVariableRow.row :=
         {| EnvVariableUI.change_id := change_id; EnvVariableUI.id := id;
            EnvVariableUI.name := name; EnvVariableUI.value := value1;
            EnvVariableUI.change_type := change_type |};
       EnVariableRow.isLocked := isLocked; EnVariableRow.comment := comment |}
    fetchers st
  = EnVariableRow.render
      {| EnVariableRow.row :=
           {| EnvVariableUI.change_id := change_id; EnvVariableUI.id := id;
              EnvVariableUI.name := name; EnvVariableUI.value := value2;
              EnvVariableUI.change_type := change_type |};
         EnVariableRow.isLocked := isLocked; EnVariableRow.comment := comment |}
      fetchers st.
Proof.
  intros Hshown Hediting. unfold EnVariableRow.render, EnVariableRow.value_cell. simpl.
  by rewrite Hshown, Hediting.
Qed.

Lemma hidden_value_not_rendered_witness :
  EnVariableRow.render
    {| EnVariableRow.row :=
         {| EnvVariableUI.change_id := None; EnvVariableUI.id := Some "e1";
            EnvVariableUI.name := "A"; EnvVariableUI.value := "1";
            EnvVariableUI.change_type := None |};
       EnVariableRow.isLocked := false; EnVariableRow.comment := None |}
    {| EnVariableRow.cancelFetcher := idle; EnVariableRow.deleteFetcher := idle |}
    EnVariableRow.initial_state
  = EnVariableRow.render
      {| EnVariableRow.row :=
           {| EnvVariableUI.change_id := None; EnvVariableUI.id := Some "e1";
              EnvVariableUI.name := "A"; EnvVariableUI.value := "s3cret";
              EnvVariableUI.change_type := None |};
         EnVariableRow.isLocked := false; EnVariableRow.comment := None |}
      {| EnVariableRow.cancelFetcher := idle; EnVariableRow.deleteFetcher := idle |}
      EnVariableRow.initial_state.
Proof. apply hidden_value_not_rendered; reflexivity. Defined.

(** X9: a system variable is shown as a locked row: in no state does
    it render a form or a menu, and it never turns into the edit
    form. *)
Theorem system_rows_offer_nothing pluralize m system props fetchers st :
  props ∈ ServiceEnvVariablesPageView.system_rows
            (ServiceEnvVariablesPageView.view pluralize m system) →
  EnVariableRow.actions (EnVariableRow.render props fetchers st) = None ∧
  ∃ comment,
    EnVariableRow.content (EnVariableRow.render props fetchers st)
    = EnVariableRow.cells (EnvVariableUI.name (EnVariableRow.row props)) comment
        (EnVariableRow.value_cell st (EnvVariableUI.value (EnVariableRow.row props))).
Proof.
  simpl. intros (env & -> & _)%list_elem_of_fmap. unfold EnVariableRow.render. simpl.
  split; [done|]. destruct (EnVariableRow.isEditing st); eauto.
Qed.

Lemma system_rows_offer_nothing_witness :
  EnVariableRow.actions
    (EnVariableRow.render
       {| EnVariableRow.row :=
            {| EnvVariableUI.change_id := None; EnvVariableUI.id := None;
               EnvVariableUI.name := "ZANE"; EnvVariableUI.value := "true";
               EnvVariableUI.change_type := None |};
          EnVariableRow.isLocked := true; EnVariableRow.comment := Some "always true" |}
       {| EnVariableRow.cancelFetcher := idle; EnVariableRow.deleteFetcher := idle |}
       {| EnVariableRow.isEnvValueShown := true; EnVariableRow.isEditing := true |})
  = None ∧
  ∃ comment,
    EnVariableRow.content
      (EnVariableRow.render
         {| EnVariableRow.row :=
              {| EnvVariableUI.change_id := None; EnvVariableUI.id := None;
                 EnvVariableUI.name := "ZANE"; EnvVariableUI.value := "true";
                 EnvVariableUI.change_type := None |};
            EnVariableRow.isLocked := true; EnVariableRow.comment := Some "always true" |}
         {| EnVariableRow.cancelFetcher := idle; EnVariableRow.deleteFetcher := idle |}
         {| EnVariableRow.isEnvValueShown := true; EnVariableRow.isEditing := true |})
    = EnVariableRow.cells "ZANE" comment
        (EnVariableRow.value_cell
           {| EnVariableRow.isEnvValueShown := true; EnVariableRow.isEditing := true |}
           "true").
Proof.
  apply (system_rows_offer_nothing (λ noun _, noun) []
           (Some [{| SystemEnvVariable.key := "ZANE"; SystemEnvVariable.value := "true";
                     SystemEnvVariable.comment := Some "always true" |}])).
  apply elem_of_cons. by left.
Defined.





(** X11: every submission of the form that a menu button of a row
    names makes [clientAction] send one request, and that request is
    about the row itself: the form of Discard change cancels the
    change the row carries, the form of Remove asks for the DELETE of
    the item the row names, with no [new_value]. A disabled button and
    Edit name no form to submit. *)
Theorem row_form_request {Data : Type} getCsrfTokenHeader
    (apiClient : Request → ApiResponse.t Data) projectSlug serviceSlug
    props fetchers st a item formData (c : Client.t) :
  EnVariableRow.actions (EnVariableRow.render props fetchers st) = Some a →
  item ∈ EnVariableRow.menu a →
  EnVariableRow.button_form a item = Some formData →
  (∃ change_id,
     item = EnVariableRow.Discard_change false ∧
     EnvVariableUI.change_id (EnVariableRow.row props) = Some change_id ∧
     Client.sent
       (Actions.clientAction getCsrfTokenHeader apiClient projectSlug serviceSlug
          formData c).2
     = Client.sent c
       ++ [DELETE_cancel_service_changes getCsrfTokenHeader projectSlug serviceSlug
             change_id]) ∨
  (∃ id,
     item = EnVariableRow.Remove false ∧
     EnvVariableUI.change_id (EnVariableRow.row props) = None ∧
     EnvVariableUI.id (EnVariableRow.row props) = Some id ∧ id ≠ "" ∧
     Client.sent
       (Actions.clientAction getCsrfTokenHeader apiClient projectSlug serviceSlug
          formData c).2
     = Client.sent c
       ++ [PUT_request_service_changes getCsrfTokenHeader projectSlug serviceSlug
             {| ChangeRequest.type := DELETE;
                ChangeRequest.item_id := Some id;
                ChangeRequest.field := "env_variables";
                ChangeRequest.new_value := None |}]).
Proof.
  unfold EnVariableRow.render. simpl.
  destruct (negb _ && negb _); [|done]. intros [= <-]. simpl.
  destruct (EnvVariableUI.change_id (EnVariableRow.row props)) as [cid|]; simpl.
  - intros ->%list_elem_of_singleton. simpl.
    destruct (bool_decide _); [done|]. intros [= <-]. left. exists cid.
    split_and!; [done..|].
    change (Actions.clientAction getCsrfTokenHeader apiClient projectSlug serviceSlug
              [("intent", "cancel-env-change"); ("change_id", cid)])
      with (Actions.returned
              <$> Actions.cancelEnvVariable getCsrfTokenHeader apiClient
                    projectSlug serviceSlug
                    [("intent", "cancel-env-change"); ("change_id", cid)]).
    by rewrite fmap_returned_sent, cancelEnvVariable_sent.
  - destruct (EnvVariableUI.id (EnVariableRow.row props)) as [i|]; simpl;
      [|by intros ?%elem_of_nil].
    unfold truthy. case_bool_decide as Hi; simpl; [|by intros ?%elem_of_nil].
    rewrite !elem_of_cons, elem_of_nil. intros [->|[->|[]]]; simpl; [done|].
    destruct (bool_decide _); [done|]. intros [= <-]. right. exists i.
    split_and!; [done..|].
    change (Actions.clientAction getCsrfTokenHeader apiClient projectSlug serviceSlug
              [("intent", "delete-env-variable"); ("item_id", i)])
      with (Actions.returned
              <$> Actions.deleteEnvVariable getCsrfTokenHeader apiClient
                    projectSlug serviceSlug
                    [("intent", "delete-env-variable"); ("item_id", i)]).
    by rewrite fmap_returned_sent, deleteEnvVariable_sent.
Qed.

End row_facts.

Lemma row_form_request_witness :
  (∃ change_id,
     EnVariableRow.Remove false = EnVariableRow.Discard_change false ∧
     EnvVariableUI.change_id (ServiceEnvVariablesPage.committed_entry Samples.e1)
     = Some change_id ∧
     Client.sent
       (Actions.clientAction [] Samples.rejecting_server "shop" "web"
          [("intent", "delete-env-variable"); ("item_id", "e1")] Samples.fresh_client).2
     = Client.sent Samples.fresh_client
       ++ [DELETE_cancel_service_changes [] "shop" "web" change_id]) ∨
  (∃ id,
     EnVariableRow.Remove false = EnVariableRow.Remove false ∧
     EnvVariableUI.change_id (ServiceEnvVariablesPage.committed_entry Samples.e1) = None ∧
     EnvVariableUI.id (ServiceEnvVariablesPage.committed_entry Samples.e1) = Some id ∧
     id ≠ "" ∧
     Client.sent
       (Actions.clientAction [] Samples.rejecting_server "shop" "web"
          [("intent", "delete-env-variable"); ("item_id", "e1")] Samples.fresh_client).2
     = Client.sent Samples.fresh_client
       ++ [PUT_request_service_changes [] "shop" "web"
             {| ChangeRequest.type := DELETE;
                ChangeRequest.item_id := Some id;
                ChangeRequest.field := "env_variables";
                ChangeRequest.new_value := None |}]).
Proof.
  apply (row_form_request [] Samples.rejecting_server "shop" "web"
           {| EnVariableRow.row := ServiceEnvVariablesPage.committed_entry Samples.e1;
              EnVariableRow.isLocked := false; EnVariableRow.comment := None |}
           {| EnVariableRow.cancelFetcher := idle; EnVariableRow.deleteFetcher := idle |}
           EnVariableRow.initial_state
           {| EnVariableRow.cancel_form := None;
              EnVariableRow.delete_form :=
                Some [("intent", "delete-env-variable"); ("item_id", "e1")];
              EnVariableRow.menu := [EnVariableRow.Edit; EnVariableRow.Remove false] |}
           (EnVariableRow.Remove false)).
  - reflexivity.
  - apply elem_of_cons. right. apply elem_of_cons. by left.
  - reflexivity.
Defined.

(** ** The forms and the actions behind them *)

Section form_facts.
Context {Data : Type}.
Implicit Types (getCsrfTokenHeader : list (string * string))
  (apiClient : Request → ApiResponse.t Data)
  (projectSlug serviceSlug : string) (formData : FormData.t) (c : Client.t).

(** X13: what the two forms post reaches the server as the change the
    user made: the edit form as one UPDATE of the item of the row with
    the key and value typed, the form for a new variable as one ADD
    with the key and value typed and no item id. *)
Theorem forms_post_changes getCsrfTokenHeader apiClient projectSlug serviceSlug
    id key value c :
  Client.sent
    (Actions.clientAction getCsrfTokenHeader apiClient projectSlug serviceSlug
       (EnvForms.EditVariableForm_entries id key value) c).2
  = Client.sent c
    ++ [PUT_request_service_changes getCsrfTokenHeader projectSlug serviceSlug
          {| ChangeRequest.type := UPDATE;
             ChangeRequest.item_id := Some id;
             ChangeRequest.field := "env_variables";
             ChangeRequest.new_value :=
               Some {| KeyValue.key := key; KeyValue.value := value |} |}] ∧
  Client.sent
    (Actions.clientAction getCsrfTokenHeader apiClient projectSlug serviceSlug
       (EnvForms.NewEnvVariableForm_entries key value) c).2
  = Client.sent c
    ++ [PUT_request_service_changes getCsrfTokenHeader projectSlug serviceSlug
          {| ChangeRequest.type := ADD;
             ChangeRequest.item_id := None;
             ChangeRequest.field := "env_variables";
             ChangeRequest.new_value :=
               Some {| KeyValue.key := key; KeyValue.value := value |} |}].
Proof.
  split.
  - change (Actions.clientAction getCsrfTokenHeader apiClient projectSlug serviceSlug
              (EnvForms.EditVariableForm_entries id key value))
      with (Actions.returned
              <$> Actions.updateEnvVariable getCsrfTokenHeader apiClient
                    projectSlug serviceSlug
                    (EnvForms.EditVariableForm_entries id key value)).
    by rewrite fmap_returned_sent, updateEnvVariable_sent.
  - change (Actions.clientAction getCsrfTokenHeader apiClient projectSlug serviceSlug
              (EnvForms.NewEnvVariableForm_entries key value))
      with (Actions.returned
              <$> Actions.createEnvVariable getCsrfTokenHeader apiClient
                    projectSlug serviceSlug
                    (EnvForms.NewEnvVariableForm_entries key value)).
    by rewrite fmap_returned_sent, createEnvVariable_sent.
Qed.

(** A [switch] on the four intents is a chain of string comparisons. *)
Lemma string_switch {A : Type} (a b c d e : A) (intent : string) :
  match intent with
  | "create-env-variable" => a
  | "update-env-variable" => b
  | "cancel-env-change" => c
  | "delete-env-variable" => d
  | _ => e
  end
  = if String.eqb intent "create-env-variable" then a
    else if String.eqb intent "update-env-variable" then b
    else if String.eqb intent "cancel-env-change" then c
    else if String.eqb intent "delete-env-variable" then d
    else e.
Proof.
  repeat (match goal with
          | |- context [match ?x with _ => _ end] =>
              is_var x; destruct x; try reflexivity
          end).
Qed.

(** The [switch] of [clientAction], case by case. *)
Lemma clientAction_cases getCsrfTokenHeader apiClient projectSlug serviceSlug formData :
  (FormData.get "intent" formData = Some "create-env-variable" ∧
   Actions.clientAction getCsrfTokenHeader apiClient projectSlug serviceSlug formData
   = fmap Actions.returned
       (Actions.createEnvVariable getCsrfTokenHeader apiClient
          projectSlug serviceSlug formData)) ∨
  (FormData.get "intent" formData = Some "update-env-variable" ∧
   Actions.clientAction getCsrfTokenHeader apiClient projectSlug serviceSlug formData
   = fmap Actions.returned
       (Actions.updateEnvVariable getCsrfTokenHeader apiClient
          projectSlug serviceSlug formData)) ∨
  (FormData.get "intent" formData = Some "cancel-env-change" ∧
   Actions.clientAction getCsrfTokenHeader apiClient projectSlug serviceSlug formData
   = fmap Actions.returned
       (Actions.cancelEnvVariable getCsrfTokenHeader apiClient
          projectSlug serviceSlug formData)) ∨
  (FormData.get "intent" formData = Some "delete-env-variable" ∧
   Actions.clientAction getCsrfTokenHeader apiClient projectSlug serviceSlug formData
   = fmap Actions.returned
       (Actions.deleteEnvVariable getCsrfTokenHeader apiClient
          projectSlug serviceSlug formData)) ∨
  ((FormData.get "intent" formData
      ∉ [Some "create-env-variable"; Some "update-env-variable";
         Some "cancel-env-change"; Some "delete-env-variable"]) ∧
   Actions.clientAction getCsrfTokenHeader apiClient projectSlug serviceSlug formData
   = mret (Actions.thrown "Unexpected intent")).
Proof.
  unfold Actions.clientAction.
  destruct (FormData.get "intent" formData) as [intent|].
  - rewrite (string_switch
               (fmap Actions.returned
                  (Actions.createEnvVariable getCsrfTokenHeader apiClient
                     projectSlug serviceSlug formData))
               (fmap Actions.returned
                  (Actions.updateEnvVariable getCsrfTokenHeader apiClient
                     projectSlug serviceSlug formData))
               (fmap Actions.returned
                  (Actions.cancelEnvVariable getCsrfTokenHeader apiClient
                     projectSlug serviceSlug formData))
               (fmap Actions.returned
                  (Actions.deleteEnvVariable getCsrfTokenHeader apiClient
                     projectSlug serviceSlug formData))
               (mret (Actions.thrown "Unexpected intent")) intent).
    destruct (String.eqb_spec intent "create-env-variable") as [->|H1]; [by left|].
    destruct (String.eqb_spec intent "update-env-variable") as [->|H2];
      [by (right; left)|].
    destruct (String.eqb_spec intent "cancel-env-change") as [->|H3];
      [by (right; right; left)|].
    destruct (String.eqb_spec intent "delete-env-variable") as [->|H4];
      [by (right; right; right; left)|].
    do 4 right. split; [|done]. rewrite !not_elem_of_cons.
    split_and!; [congruence..|apply not_elem_of_nil].
  - do 4 right. split; [|done]. rewrite !not_elem_of_cons.
    split_and!; [discriminate..|apply not_elem_of_nil].
Qed.

(** X14: a form whose intent is none of the four the page knows makes
    [clientAction] throw before it does anything: no request is sent,
    no toast shown and no query invalidated. *)
Theorem unknown_intent_changes_nothing getCsrfTokenHeader apiClient
    projectSlug serviceSlug formData c :
  FormData.get "intent" formData
    ∉ [Some "create-env-variable"; Some "update-env-variable";
       Some "cancel-env-change"; Some "delete-env-variable"] →
  Actions.clientAction getCsrfTokenHeader apiClient projectSlug serviceSlug formData c
  = (Actions.thrown "Unexpected intent", c).
Proof.
  intros Hintent.
  destruct (clientAction_cases getCsrfTokenHeader apiClient projectSlug serviceSlug
              formData) as [[H _]|[[H _]|[[H _]|[[H _]|[_ ->]]]]]; [..|done];
    destruct Hintent; rewrite H, !elem_of_cons; auto.
Qed.

Lemma fmap_returned_snd (action : Action (@Actions.ActionResult Data)) c :
  ((Actions.returned <$> action) c).2 = (action c).2.
Proof. unfold fmap, Action_fmap. by destruct (action c). Qed.

(** X15: whatever the form holds, [clientAction] sends at most one
    request and invalidates at most one query, the one of the service
    it was called for; it never invalidates the query of another
    service and never drops a toast that was there. *)
Theorem client_action_footprint getCsrfTokenHeader apiClient projectSlug serviceSlug
    formData c :
  (Client.sent
     (Actions.clientAction getCsrfTokenHeader apiClient projectSlug serviceSlug
        formData c).2 = Client.sent c ∨
   ∃ r, Client.sent
          (Actions.clientAction getCsrfTokenHeader apiClient projectSlug serviceSlug
             formData c).2 = Client.sent c ++ [r]) ∧
  (Client.invalidated
     (Actions.clientAction getCsrfTokenHeader apiClient projectSlug serviceSlug
        formData c).2 = Client.invalidated c ∨
   Client.invalidated
     (Actions.clientAction getCsrfTokenHeader apiClient projectSlug serviceSlug
        formData c).2 = Client.invalidated c ++ [(projectSlug, serviceSlug)]) ∧
  ∃ new,
    Client.toasts
      (Actions.clientAction getCsrfTokenHeader apiClient projectSlug serviceSlug
         formData c).2 = Client.toasts c ++ new.
Proof.
  destruct (clientAction_cases getCsrfTokenHeader apiClient projectSlug serviceSlug
              formData) as [[_ ->]|[[_ ->]|[[_ ->]|[[_ ->]|[_ ->]]]]];
    rewrite ?fmap_returned_snd.
  - unfold Actions.createEnvVariable, mbind, Action_bind, Actions.fetch. simpl.
    destruct (ApiResponse.error _); [|destruct (ApiResponse.data _)]; simpl;
      (split_and!; [right; by eexists | auto | exists []; by rewrite app_nil_r]).
  - unfold Actions.updateEnvVariable, mbind, Action_bind, Actions.fetch. simpl.
    destruct (ApiResponse.error _); [|destruct (ApiResponse.data _)]; simpl;
      (split_and!; [right; by eexists | auto | exists []; by rewrite app_nil_r]).
  - unfold Actions.cancelEnvVariable, mbind, Action_bind, Actions.fetch,
      Actions.toast_loading. simpl.
    destruct (ApiResponse.error _); simpl;
      (split_and!; [right; by eexists | auto | rewrite <- app_assoc; by eexists]).
  - unfold Actions.deleteEnvVariable, mbind, Action_bind, Actions.fetch,
      Actions.toast_loading. simpl.
    destruct (ApiResponse.error _); simpl;
      (split_and!; [right; by eexists | auto | rewrite <- app_assoc; by eexists]).
  - simpl. split_and!; [by left | by left | exists []; by rewrite app_nil_r].
Qed.


(** X17: [createEnvVariable] and [updateEnvVariable] invalidate the
    query of the service exactly when the response has no error and
    has data; a response with neither is no reason for a refetch. *)
Theorem refetch_iff_data getCsrfTokenHeader apiClient projectSlug serviceSlug
    formData c :
  (Client.invalidated
     (Actions.createEnvVariable getCsrfTokenHeader apiClient projectSlug serviceSlug
        formData c).2 ≠ Client.invalidated c
   ↔ ApiResponse.error
       (apiClient (Actions.createEnvVariable_request getCsrfTokenHeader
                     projectSlug serviceSlug formData)) = None ∧
     is_Some (ApiResponse.data
                (apiClient (Actions.createEnvVariable_request getCsrfTokenHeader
                              projectSlug serviceSlug formData)))) ∧
  (Client.invalidated
     (Actions.updateEnvVariable getCsrfTokenHeader apiClient projectSlug serviceSlug
        formData c).2 ≠ Client.invalidated c
   ↔ ApiResponse.error
       (apiClient (Actions.updateEnvVariable_request getCsrfTokenHeader
                     projectSlug serviceSlug formData)) = None ∧
     is_Some (ApiResponse.data
                (apiClient (Actions.updateEnvVariable_request getCsrfTokenHeader
                              projectSlug serviceSlug formData)))).
Proof.
  assert (Hgrow : ∀ l : list (string * string), l ++ [(projectSlug, serviceSlug)] ≠ l).
  { intros l Heq. apply (f_equal length) in Heq. rewrite length_app in Heq.
    simpl in Heq. lia. }
  split_and!.
  - unfold Actions.createEnvVariable, mbind, Action_bind, Actions.fetch. simpl.
    destruct (ApiResponse.error _); [|destruct (ApiResponse.data _)]; simpl.
    + split; [done | by intros [? _]].
    + split; [by eauto | intros _; apply Hgrow].
    + split; [done | by intros [_ [? ?]]].
  - unfold Actions.updateEnvVariable, mbind, Action_bind, Actions.fetch. simpl.
    destruct (ApiResponse.error _); [|destruct (ApiResponse.data _)]; simpl.
    + split; [done | by intros [? _]].
    + split; [by eauto | intros _; apply Hgrow].
    + split; [done | by intros [_ [? ?]]].
Qed.

(** X18: the edit form closes exactly when the update came back with
    data and no error: after an error it stays open (and only moves
    the focus), after a response with neither it stays open too, and
    while the fetcher is busy nothing happens. The form for a new
    variable is reset under the same condition. *)
Theorem forms_close_on_data {FormErrors : Type}
    (getFormErrorsFromResponseData : option ApiError.t → FormErrors)
    (new_value_key new_value_value : FormErrors → bool)
    getCsrfTokenHeader apiClient projectSlug serviceSlug formData c state :
  (EnvForms.call_quitEditMode
     ∈ EnvForms.EditVariableForm_effect getFormErrorsFromResponseData
         new_value_key new_value_value state
         (Actions.updateEnvVariable getCsrfTokenHeader apiClient projectSlug serviceSlug
            formData c).1
   ↔ state = idle ∧
     ApiResponse.error
       (apiClient (Actions.updateEnvVariable_request getCsrfTokenHeader
                     projectSlug serviceSlug formData)) = None ∧
     is_Some (ApiResponse.data
                (apiClient (Actions.updateEnvVariable_request getCsrfTokenHeader
                              projectSlug serviceSlug formData)))) ∧
  (EnvForms.reset_form
     ∈ EnvForms.NewEnvVariableForm_effect getFormErrorsFromResponseData
         new_value_key new_value_value state
         (Actions.createEnvVariable getCsrfTokenHeader apiClient projectSlug serviceSlug
            formData c).1
   ↔ state = idle ∧
     ApiResponse.error
       (apiClient (Actions.createEnvVariable_request getCsrfTokenHeader
                     projectSlug serviceSlug formData)) = None ∧
     is_Some (ApiResponse.data
                (apiClient (Actions.createEnvVariable_request getCsrfTokenHeader
                              projectSlug serviceSlug formData)))).
Proof.
  assert (Hfocus : ∀ (data : @Actions.ActionResult Data) (eff : EnvForms.Effect),
             eff ∈ EnvForms.focus_on_errors getFormErrorsFromResponseData
                     new_value_key new_value_value data →
             ∃ input, eff = EnvForms.focus input).
  { intros data eff. unfold EnvForms.focus_on_errors.
    intros [Hin|Hin]%elem_of_app; revert Hin; case_match;
      rewrite ?list_elem_of_singleton, ?elem_of_nil; intros Hin; by eauto. }
  split.
  - unfold Actions.updateEnvVariable, mbind, Action_bind, Actions.fetch. simpl.
    destruct (ApiResponse.error _); [|destruct (ApiResponse.data _)]; simpl;
      destruct state; simpl; rewrite ?elem_of_nil, ?list_elem_of_singleton;
      try (split; [by intros [] | by intros (? & ? & ?)]).
    split; [by intros [? [=]]%Hfocus | by intros (_ & ? & _)].
  - unfold Actions.createEnvVariable, mbind, Action_bind, Actions.fetch. simpl.
    destruct (ApiResponse.error _); [|destruct (ApiResponse.data _)]; simpl;
      destruct state; simpl; rewrite ?elem_of_nil, ?elem_of_cons, ?elem_of_nil;
      try (split; [by intros [] | by intros (? & ? & ?)]).
    + split; [by intros [? [=]]%Hfocus | by intros (_ & ? & _)].
    + split; [by eauto | auto].
Qed.

End form_facts.

Lemma unknown_intent_changes_nothing_witness :
  Actions.clientAction [] Samples.rejecting_server "shop" "web"
    [("key", "A"); ("value", "1")] Samples.fresh_client
  = (Actions.thrown "Unexpected intent", Samples.fresh_client).
Proof.
  apply unknown_intent_changes_nothing.
  rewrite !not_elem_of_cons. split_and!; [discriminate..|apply not_elem_of_nil].
Defined.


(** ** The tabs, the links and the image of the layout *)

Section tab_facts.
Import ServiceTabs.

Lemma endsWith_unfold (suffix s : string) :
  endsWith suffix s
  = String.eqb s suffix
    || match s with
       | EmptyString => false
       | String _ s' => endsWith suffix s'
       end.
Proof. by destruct s. Qed.

Lemma endsWith_append (suffix s : string) :
  endsWith suffix s = true ↔ ∃ b, s = b +:+ suffix.
Proof.
  split.
  - induction s as [|a s IH]; rewrite endsWith_unfold;
      intros [Heq|Hrest]%orb_true_iff.
    + exists "". by apply String.eqb_eq in Heq.
    + done.
    + exists "". by apply String.eqb_eq in Heq.
    + destruct (IH Hrest) as [b ->]. by exists (String a b).
  - intros [b ->]. induction b as [|a b IH]; rewrite endsWith_unfold; simpl.
    + by rewrite String.eqb_refl.
    + rewrite IH. apply orb_true_r.
Qed.

Lemma list_ascii_append (s1 s2 : string) :
  String.list_ascii_of_string (s1 +:+ s2)
  = String.list_ascii_of_string s1 ++ String.list_ascii_of_string s2.
Proof. induction s1 as [|a s1 IH]; simpl; [done|]. by rewrite IH. Qed.

(** Two pathnames with tails of the same length that differ are
    different. *)
Lemma tails_differ (b1 b2 t1 t2 : string) :
  length (String.list_ascii_of_string t1) = length (String.list_ascii_of_string t2) →
  t1 ≠ t2 → b1 +:+ t1 ≠ b2 +:+ t2.
Proof.
  intros Hlen Hne Heq. apply (f_equal String.list_ascii_of_string) in Heq.
  rewrite !list_ascii_append in Heq. apply app_inj_2 in Heq as [_ Heq]; [|done].
  apply Hne. rewrite <- (String.string_of_list_ascii_of_string t1),
    <- (String.string_of_list_ascii_of_string t2). by rewrite Heq.
Qed.

Lemma append_assoc (s1 s2 s3 : string) : (s1 +:+ s2) +:+ s3 = s1 +:+ (s2 +:+ s3).
Proof.
  induction s1 as [|a s1 IH]; [done|].
  change (String a ((s1 +:+ s2) +:+ s3) = String a (s1 +:+ (s2 +:+ s3))).
  by rewrite IH.
Qed.

(** No pathname matches both patterns. *)
Lemma patterns_exclusive (pathname : string) :
  match_at_end "env-variables" pathname = true →
  match_at_end "settings" pathname = true → False.
Proof.
  unfold match_at_end. rewrite !orb_true_iff, !endsWith_append. simpl.
  intros [[b1 ->]|[b1 ->]] [[b2 Heq]|[b2 Heq]].
  - apply (tails_differ (b1 +:+ "env-v") b2 "ariables" "settings");
      [reflexivity | discriminate |]. rewrite append_assoc. exact Heq.
  - apply (tails_differ (b1 +:+ "env-") b2 "variables" "settings/");
      [reflexivity | discriminate |]. rewrite append_assoc. exact Heq.
  - apply (tails_differ (b1 +:+ "env-va") b2 "riables/" "settings");
      [reflexivity | discriminate |]. rewrite append_assoc. exact Heq.
  - apply (tails_differ (b1 +:+ "env-v") b2 "ariables/" "settings/");
      [reflexivity | discriminate |]. rewrite append_assoc. exact Heq.
Qed.

Lemma match_at_end_iff (word pathname : string) :
  match_at_end word pathname = true
  ↔ ∃ b, pathname = b +:+ word ∨ pathname = b +:+ (word +:+ "/").
Proof.
  unfold match_at_end. rewrite orb_true_iff, !endsWith_append.
  split; [intros [[b ->]|[b ->]]; eauto | intros [b [->| ->]]; eauto].
Qed.

(** X19: the tab depends on the tail of the pathname only. It is the
    variables tab exactly when the pathname ends in [env-variables],
    with or without a final slash, the settings tab exactly when it
    ends in [settings], with or without a final slash, and the
    deployments tab in every other case; what comes before the tail,
    the slug of the service included, plays no part. *)
Theorem tab_by_pathname_tail (pathname : string) :
  (currentSelectedTab pathname = ENV_VARIABLES
   ↔ ∃ b, pathname = b +:+ "env-variables" ∨ pathname = b +:+ "env-variables/") ∧
  (currentSelectedTab pathname = SETTINGS
   ↔ ∃ b, pathname = b +:+ "settings" ∨ pathname = b +:+ "settings/") ∧
  (currentSelectedTab pathname = DEPLOYMENTS
   ↔ ¬ ∃ b, pathname = b +:+ "env-variables" ∨ pathname = b +:+ "env-variables/"
            ∨ pathname = b +:+ "settings" ∨ pathname = b +:+ "settings/").
Proof.
  pose proof (match_at_end_iff "env-variables" pathname) as Henv.
  pose proof (match_at_end_iff "settings" pathname) as Hset.
  pose proof (patterns_exclusive pathname) as Hexcl. simpl in Henv, Hset.
  unfold currentSelectedTab.
  destruct (match_at_end "env-variables" pathname);
    destruct (match_at_end "settings" pathname); try (by destruct Hexcl).
  - split_and!; [split; [intros _; by apply Henv | done] | |].
    + split; [done|]. intros H%Hset. done.
    + split; [done|]. intros Hnot. destruct Hnot.
      destruct (proj1 Henv eq_refl) as [b [->| ->]]; exists b; auto.
  - split_and!; [| split; [intros _; by apply Hset | done] |].
    + split; [done|]. intros H%Henv. done.
    + split; [done|]. intros Hnot. destruct Hnot.
      destruct (proj1 Hset eq_refl) as [b [->| ->]]; exists b; auto.
  - split_and!.
    + split; [done|]. intros H%Henv. done.
    + split; [done|]. intros H%Hset. done.
    + split; [|done]. intros _ [b [->|[->|[->| ->]]]].
      * assert (false = true); [apply Henv; eauto | done].
      * assert (false = true); [apply Henv; eauto | done].
      * assert (false = true); [apply Hset; eauto | done].
      * assert (false = true); [apply Hset; eauto | done].
Qed.

Lemma tab_of_tail (base word : string) (tab : Tab) :
  (word = "env-variables" ∧ tab = ENV_VARIABLES) ∨ (word = "settings" ∧ tab = SETTINGS) →
  currentSelectedTab (base +:+ "/" +:+ word) = tab ∧
  currentSelectedTab (base +:+ "/" +:+ word +:+ "/") = tab.
Proof.
  assert (H1 : match_at_end word (base +:+ "/" +:+ word) = true).
  { apply match_at_end_iff. exists (base +:+ "/"). left. by rewrite append_assoc. }
  assert (H2 : match_at_end word (base +:+ "/" +:+ word +:+ "/") = true).
  { apply match_at_end_iff. exists (base +:+ "/"). right. by rewrite !append_assoc. }
  unfold currentSelectedTab. intros [[-> ->]|[-> ->]].
  - by rewrite H1, H2.
  - destruct (match_at_end "env-variables" (base +:+ "/" +:+ "settings")) eqn:E1;
      [by destruct (patterns_exclusive _ E1 H1)|].
    destruct (match_at_end "env-variables" (base +:+ "/" +:+ "settings" +:+ "/")) eqn:E2;
      [by destruct (patterns_exclusive _ E2 H2)|].
    by rewrite H1, H2.
Qed.

(** X20: the tabs and the patterns agree: the place the variables tab
    and the settings tab navigate to, put after any base, is a
    pathname that selects that same tab, with or without a final
    slash; a value that is no tab navigates nowhere. *)
Theorem tab_navigation_round_trip (tab : Tab) (value base : string) :
  (tab ≠ DEPLOYMENTS →
   ∃ word, onValueChange (TABS tab) = Some ("./" +:+ word) ∧
     currentSelectedTab (base +:+ "/" +:+ word) = tab ∧
     currentSelectedTab (base +:+ "/" +:+ word +:+ "/") = tab) ∧
  (value ∉ [TABS DEPLOYMENTS; TABS ENV_VARIABLES; TABS SETTINGS] →
   onValueChange value = None).
Proof.
  split.
  - intros Htab. destruct tab; [done| |].
    + exists "env-variables". split; [done|]. apply tab_of_tail. by left.
    + exists "settings". split; [done|]. apply tab_of_tail. by right.
  - rewrite !not_elem_of_cons. intros (H1 & H2 & H3 & _). unfold onValueChange.
    by rewrite !decide_False.
Qed.

Lemma tab_navigation_round_trip_witness :
  (∃ word, onValueChange (TABS SETTINGS) = Some ("./" +:+ word) ∧
     currentSelectedTab ("/project/shop/services/docker/settings" +:+ "/" +:+ word)
     = SETTINGS ∧
     currentSelectedTab
       ("/project/shop/services/docker/settings" +:+ "/" +:+ word +:+ "/")
     = SETTINGS) ∧
  onValueChange "logs" = None.
Proof.
  destruct (tab_navigation_round_trip SETTINGS "logs"
              "/project/shop/services/docker/settings") as [Hround Hnone].
  split.
  - by apply Hround.
  - apply Hnone. rewrite !not_elem_of_cons.
    split_and!; [discriminate..|apply not_elem_of_nil].
Defined.

End tab_facts.

Section header_facts.
Import ServiceDetailsLayout.

(** X21: every url of the service is linked once and in order: the
    first as the link of the header, the others in the popover. The
    popover is there exactly when the service has two urls or more,
    and its badge counts the links it holds. *)
Theorem urls_all_linked {URL : Type} (formatURL : URL → string)
    (pluralize : string → nat → string) (urls : list URL) :
  match ServiceUrls.block formatURL pluralize urls with
  | None => urls = []
  | Some b =>
      ServiceUrls.link b
        :: match ServiceUrls.popover b with
           | Some p => ServiceUrls.links p
           | None => []
           end
      = formatURL <$> urls ∧
      (is_Some (ServiceUrls.popover b) ↔ (2 ≤ length urls)%nat) ∧
      ∀ p, ServiceUrls.popover b = Some p →
           ServiceUrls.badge p
           = (length (ServiceUrls.links p),
              pluralize "url" (length (ServiceUrls.links p)))
  end.
Proof.
  destruct urls as [|first [|second rest]]; simpl; [done| |].
  - split_and!; [done| |by intros p [=]]. split; [by intros [? [=]] | lia].
  - split_and!; [done| |].
    + split; [lia | by eexists].
    + intros p [= <-]. simpl. by rewrite length_fmap.
Qed.



(** X23: the image of the header depends on [service.image] and, only
    when there is none, on the first unapplied change of [source]. A
    service that has an image shows it whatever is staged, and of
    several staged changes of [source] the later ones do not show. *)
Theorem image_ignores_later_changes (service1 service2 : Service) :
  DockerService.image service1 = DockerService.image service2 →
  (DockerService.image service1 = None →
   head (filter (λ change, Change.field change = "source")
                (DockerService.unapplied_changes service1))
   = head (filter (λ change, Change.field change = "source")
                  (DockerService.unapplied_changes service2))) →
  serviceImage service1 = serviceImage service2.
Proof.
  intros Himage Hhead. unfold serviceImage, resolved_image. rewrite <- Himage.
  destruct (DockerService.image service1); [done|]. by rewrite Hhead.
Qed.

Lemma image_ignores_later_changes_witness :
  serviceImage
    {| DockerService.slug := "web"; DockerService.image := Some "nginx";
       DockerService.env_variables := None;
       DockerService.unapplied_changes :=
         [{| Change.id := "c8"; Change.field := "source"; Change.type := UPDATE;
             Change.item_id := None;
             Change.new_value :=
               Some {| SourceValue.image := Some "redis:7";
                       SourceValue.credentials := None |};
             Change.old_value := None |}] |}
  = serviceImage
      {| DockerService.slug := "web"; DockerService.image := Some "nginx";
         DockerService.env_variables := None;
         DockerService.unapplied_changes := [] |}.
Proof. apply image_ignores_later_changes; [reflexivity | discriminate]. Defined.

End header_facts.
